(** * The package manifest shape of [package.d.ts]

    The repository is one TypeScript declaration file, [namespace Package],
    whose interface [Package.Json] describes the documents accepted as a
    [package.json].  This development embeds

    - JSON documents ([json]),
    - the fragment of TypeScript's type language the file uses ([ty]),
    - every declaration of the namespace, transcribed field by field
      ([Module Package]),
    - the structural assignability of a JSON value to a type ([conforms]),

    and a violation-collecting validator over the same declarations
    ([validate]).

    Conventions of the embedding.  Types are read under [strictNullChecks]
    (the file writes [| null] and [| undefined] out, which would be
    redundant otherwise).  A JSON member is either absent or carries a JSON
    value, so the type [undefined] is inhabited by no JSON value and an
    optional member [k?: T] is satisfied by absence.  Conformance is plain
    structural assignability: members a record type does not declare are
    looked at only by its index signature, if it has one, with the one
    exception TypeScript makes for a weak type (an object type without
    index signature all of whose members are optional): an object that
    has members but none in common with a weak type is not assignable to
    it.  The excess-property check, which the compiler runs on fresh
    object literals only, is not part of assignability.  An object is a
    list of members in document order and every member of the list is
    checked. *)

From Stdlib Require Import List String Bool Arith Lia Permutation.
Import ListNotations.
Open Scope string_scope.
Open Scope list_scope.

Set Implicit Arguments.

(* ================================================================== *)
(** * JSON values *)
(* ================================================================== *)

(** A JSON number is kept as the literal found in the document: no shape
    of the schema looks at its value. *)
#[local] Unset Elimination Schemes.

Inductive json : Type :=
| JNull
| JBool (b : bool)
| JNum (literal : string)
| JStr (s : string)
| JArr (items : list json)
| JObj (members : list (string * json)).

#[local] Set Elimination Schemes.

(** Induction with the hypotheses for the items of an array and for the
    member values of an object. *)
Section JsonInduction.
Variable P : json -> Prop.
Hypothesis Hnull : P JNull.
Hypothesis Hbool : forall b, P (JBool b).
Hypothesis Hnum : forall n, P (JNum n).
Hypothesis Hstr : forall s, P (JStr s).
Hypothesis Harr : forall vs, Forall P vs -> P (JArr vs).
Hypothesis Hobj : forall ms, Forall (fun m => P (snd m)) ms -> P (JObj ms).

Fixpoint json_nested_ind (v : json) : P v :=
  match v with
  | JNull => Hnull
  | JBool b => Hbool b
  | JNum n => Hnum n
  | JStr s => Hstr s
  | JArr vs =>
      Harr ((fix items (l : list json) : Forall P l :=
               match l with
               | [] => Forall_nil P
               | x :: r => Forall_cons x (json_nested_ind x) (items r)
               end) vs)
  | JObj ms =>
      Hobj ((fix members (l : list (string * json))
               : Forall (fun m => P (snd m)) l :=
               match l with
               | [] => Forall_nil _
               | m :: r =>
                   Forall_cons m (json_nested_ind (snd m)) (members r)
               end) ms)
  end.
End JsonInduction.

Definition is_string (v : json) : bool :=
  match v with JStr _ => true | _ => false end.

Definition is_boolean (v : json) : bool :=
  match v with JBool _ => true | _ => false end.

Definition is_null (v : json) : bool :=
  match v with JNull => true | _ => false end.

Definition is_array (v : json) : bool :=
  match v with JArr _ => true | _ => false end.

Definition is_record (v : json) : bool :=
  match v with JObj _ => true | _ => false end.

(** The keys of an object, in document order. *)
Definition keys (ms : list (string * json)) : list string := map fst ms.

Definition has_key (k : string) (ms : list (string * json)) : bool :=
  existsb (String.eqb k) (keys ms).

(** Dropping every member stored under [k]. *)
Definition without (k : string) (ms : list (string * json))
  : list (string * json) :=
  filter (fun m => negb (String.eqb k (fst m))) ms.


(* ================================================================== *)
(** * The type language of the declaration file *)
(* ================================================================== *)

(** [TRecord props index] is an object type (an [interface] body or a type
    literal): [props] are its declared members [(key, optional?, type)]
    in source order and [index] is the value type of its string index
    signature [[k: string]: T], when it has one.  [TRef n] is a reference
    to the declaration named [n] of the namespace. *)
#[local] Set Warnings "-register-all".

Inductive ty : Type :=
| TString
| TBoolean
| TNull
| TUndefined
| TAny
| TObject
| TArray (elem : ty)
| TUnion (l r : ty)
| TRecord (props : list (string * bool * ty)) (index : option ty)
| TRef (n : string).

#[local] Set Warnings "register-all".

Declare Scope ty_scope.
Delimit Scope ty_scope with ty.
Bind Scope ty_scope with ty.
Infix ":|:" := TUnion (at level 50, left associativity) : ty_scope.

(** [k: T] and [k?: T]. *)
Definition req (k : string) (t : ty) : string * bool * ty := (k, false, t).
Definition opt (k : string) (t : ty) : string * bool * ty := (k, true, t).

Definition prop_key (p : string * bool * ty) : string := fst (fst p).
Definition prop_optional (p : string * bool * ty) : bool := snd (fst p).
Definition prop_ty (p : string * bool * ty) : ty := snd p.

(** The declared type of member [k], if the record type declares it. *)
Fixpoint prop_type (k : string) (props : list (string * bool * ty))
  : option ty :=
  match props with
  | [] => None
  | p :: rest =>
      if String.eqb k (prop_key p) then Some (prop_ty p)
      else prop_type k rest
  end.

(* ================================================================== *)
(** * [declare namespace Package] *)
(* ================================================================== *)

(** One definition per declaration of the file, in source order.  The
    anonymous type literals written inline in [interface Json] are named
    after their member ([Json_bugs] for the type of [bugs], ...). *)
Module Package.

Local Open Scope ty_scope.

(** [type Person = string | { name: string, url?: string, email?: string }] *)
Definition Person : ty :=
  TString :|:
  TRecord [ req "name" TString; opt "url" TString; opt "email" TString ]
          None.

(** [interface Dependency { [package: string] : string }] *)
Definition Dependency : ty := TRecord [] (Some TString).

(** [type PackageExportsEntryPath = string | null] *)
Definition PackageExportsEntryPath : ty := TString :|: TNull.

(** [interface PackageExportsEntryObject]; every condition is optional
    and refers back to [PackageExportsEntryOrFallback]. *)
Definition PackageExportsEntryObject : ty :=
  TRecord [ opt "require" (TRef "PackageExportsEntryOrFallback");
            opt "import" (TRef "PackageExportsEntryOrFallback");
            opt "node" (TRef "PackageExportsEntryOrFallback");
            opt "default" (TRef "PackageExportsEntryOrFallback");
            opt "types" (TRef "PackageExportsEntryOrFallback") ]
          None.

(** [type PackageExportsEntry =
      PackageExportsEntryPath | PackageExportsEntryObject] *)
Definition PackageExportsEntry : ty :=
  TRef "PackageExportsEntryPath" :|: TRef "PackageExportsEntryObject".

(** [type PackageExportsFallback = PackageExportsEntry[]] *)
Definition PackageExportsFallback : ty :=
  TArray (TRef "PackageExportsEntry").

(** [type PackageExportsEntryOrFallback =
      PackageExportsEntry | PackageExportsEntry[]] *)
Definition PackageExportsEntryOrFallback : ty :=
  TRef "PackageExportsEntry" :|: TArray (TRef "PackageExportsEntry").

(** [interface fundingWay { url: string, type?: string }] *)
Definition fundingWay : ty :=
  TRecord [ req "url" TString; opt "type" TString ] None.

(** [bugs?: string | { url: string, email: string }] *)
Definition Json_bugs : ty :=
  TString :|: TRecord [ req "url" TString; req "email" TString ] None.

(** [exports?: PackageExportsEntryPath
             | { [module: string] : PackageExportsEntryOrFallback }
             | PackageExportsEntryObject | PackageExportsFallback] *)
Definition Json_exports : ty :=
  TRef "PackageExportsEntryPath" :|:
  TRecord [] (Some (TRef "PackageExportsEntryOrFallback")) :|:
  TRef "PackageExportsEntryObject" :|:
  TRef "PackageExportsFallback".

(** [typesVersions?: { [type: string] : string[] }] *)
Definition Json_typesVersions : ty :=
  TRecord [] (Some (TArray TString)).

Definition Json_directories : ty :=
  TRecord [ opt "bin" TString; opt "doc" TString; opt "example" TString;
            opt "lib" TString; opt "man" TString; opt "test" TString ]
          None.

(** [repository?: string | { type?, url?, directory? }] *)
Definition Json_repository : ty :=
  TString :|:
  TRecord [ opt "type" TString; opt "url" TString;
            opt "directory" TString ]
          None.

(** [funding?: string | string[] | fundingWay | fundingWay[]] *)
Definition Json_funding : ty :=
  TString :|: TArray TString :|: TRef "fundingWay" :|:
  TArray (TRef "fundingWay").

(** The lifecycle hooks the file names, then
    [[name: string] : string | undefined]. *)
Definition Json_scripts : ty :=
  TRecord [ opt "lint" TString;
            opt "prepublish" TString;
            opt "prepare" TString;
            opt "prepublishOnly" TString;
            opt "prepack" TString;
            opt "postpack" TString;
            opt "publish" TString;
            opt "postpublish" TString;
            opt "preinstall" TString;
            opt "install" TString;
            opt "postinstall" TString;
            opt "preuninstall" TString;
            opt "uninstall" TString;
            opt "postuninstall" TString;
            opt "preversion" TString;
            opt "version" TString;
            opt "postversion" TString;
            opt "pretest" TString;
            opt "test" TString;
            opt "posttest" TString;
            opt "prestop" TString;
            opt "stop" TString;
            opt "poststop" TString;
            opt "prestart" TString;
            opt "start" TString;
            opt "poststart" TString;
            opt "prerestart" TString;
            opt "restart" TString;
            opt "postrestart" TString;
            opt "serve" TString ]
          (Some (TString :|: TUndefined)).

(** One entry of [peerDependenciesMeta]:
    [{ optional: boolean,
       [property: string] : string | boolean | undefined }] *)
Definition Json_peerDependenciesMeta_entry : ty :=
  TRecord [ req "optional" TBoolean ]
          (Some (TString :|: TBoolean :|: TUndefined)).

(** [peerDependenciesMeta?: { [name: string] : { ... } }] *)
Definition Json_peerDependenciesMeta : ty :=
  TRecord [] (Some Json_peerDependenciesMeta_entry).

(** [engines?: { node: string, [name: string] : string }] *)
Definition Json_engines : ty :=
  TRecord [ req "node" TString ] (Some TString).

(** [publishConfig?: { access?, tag?, registry?,
                       [name: string] : string | undefined }] *)
Definition Json_publishConfig : ty :=
  TRecord [ opt "access" TString; opt "tag" TString;
            opt "registry" TString ]
          (Some (TString :|: TUndefined)).

Definition Json_dist : ty :=
  TRecord [ opt "shasum" TString; opt "tarball" TString ] None.

(** [esnext?: string | { main?, browser?,
                         [name: string] : string | undefined }] *)
Definition Json_esnext : ty :=
  TString :|:
  TRecord [ opt "main" TString; opt "browser" TString ]
          (Some (TString :|: TUndefined)).

(** [workspaces?: string[] | { packages?: string[], nohoist?: string[] }] *)
Definition Json_workspaces : ty :=
  TArray TString :|:
  TRecord [ opt "packages" (TArray TString);
            opt "nohoist" (TArray TString) ]
          None.

(** The members of [interface Json], in source order. *)
Definition Json_members : list (string * bool * ty) :=
  [ req "name" TString;
    req "version" TString;
    opt "description" TString;
    opt "keywords" (TArray TString);
    opt "homepage" TString;
    opt "bugs" Json_bugs;
    opt "license" TString;
    opt "author" (TString :|: TRef "Person");
    opt "contributors" (TArray (TRef "Person"));
    opt "maintainers" (TArray (TRef "Person"));
    opt "files" (TArray TString);
    opt "main" TString;
    opt "exports" Json_exports;
    opt "bin" (TString :|: TObject);
    opt "type" TString;
    opt "types" TString;
    opt "typings" TString;
    opt "typesVersions" Json_typesVersions;
    opt "man" (TString :|: TArray TString);
    opt "directories" Json_directories;
    opt "repository" Json_repository;
    opt "funding" Json_funding;
    opt "scripts" Json_scripts;
    opt "config" TObject;
    opt "dependencies" (TRef "Dependency");
    opt "devDependencies" (TRef "Dependency");
    opt "optionalDependencies" (TRef "Dependency");
    opt "peerDependencies" (TRef "Dependency");
    opt "peerDependenciesMeta" Json_peerDependenciesMeta;
    opt "bundledDependencies" (TBoolean :|: TArray TString);
    opt "resolutions" TObject;
    opt "overrides" TObject;
    opt "packageManager" TString;
    opt "engines" Json_engines;
    opt "engineStrict" TBoolean;
    opt "os" (TArray TString);
    opt "cpu" (TArray TString);
    opt "private" (TBoolean :|: TString);
    opt "publishConfig" Json_publishConfig;
    opt "dist" Json_dist;
    opt "readme" TString;
    opt "module" TString;
    opt "esnext" Json_esnext;
    opt "workspaces" Json_workspaces;
    opt "jspm" TAny;
    opt "eslintConfig" TObject;
    opt "prettier" TObject;
    opt "stylelint" TObject;
    opt "ava" TObject;
    opt "release" TObject;
    opt "jscpd" TObject ].

(** [interface Json] *)
Definition Json : ty := TRecord Json_members None.

(** The namespace: the named declarations a [TRef] resolves to. *)
Definition declarations : list (string * ty) :=
  [ ("Person", Person);
    ("Dependency", Dependency);
    ("PackageExportsEntryPath", PackageExportsEntryPath);
    ("PackageExportsEntryObject", PackageExportsEntryObject);
    ("PackageExportsEntry", PackageExportsEntry);
    ("PackageExportsFallback", PackageExportsFallback);
    ("PackageExportsEntryOrFallback", PackageExportsEntryOrFallback);
    ("fundingWay", fundingWay);
    ("Json", Json) ].

End Package.

(* ================================================================== *)
(** * Assignability of a JSON value to a type *)
(* ================================================================== *)

Fixpoint lookup_decl (n : string) (ds : list (string * ty)) : option ty :=
  match ds with
  | [] => None
  | d :: rest => if String.eqb n (fst d) then Some (snd d)
                 else lookup_decl n rest
  end.

(** The alternatives of a type: its union flattened and its references
    resolved, down to the first constructor that looks at the value.
    Resolving a reference consumes fuel; a chain of references longer
    than the number of declarations would be a type alias that refers to
    itself without passing through an object or array type, which
    TypeScript refuses.  [None] reports such a chain or an unbound name. *)
Fixpoint alternatives (fuel : nat) (t : ty) {struct fuel}
  : option (list ty) :=
  match fuel with
  | 0 => None
  | S fuel' =>
      (fix flatten (t : ty) : option (list ty) :=
         match t with
         | TUnion a b =>
             match flatten a, flatten b with
             | Some xs, Some ys => Some (xs ++ ys)
             | _, _ => None
             end
         | TRef n =>
             match lookup_decl n Package.declarations with
             | Some d => alternatives fuel' d
             | None => None
             end
         | _ => Some [t]
         end) t
  end.

Definition resolve (t : ty) : option (list ty) :=
  alternatives (S (List.length Package.declarations)) t.

(** Every required member of [props] is among the keys [ks]. *)
Definition required_present (props : list (string * bool * ty))
           (ks : list string) : bool :=
  forallb (fun p => prop_optional p || existsb (String.eqb (prop_key p)) ks)
          props.

(** The type member [k] of an object must have: its declared type, else
    the index signature's, else none (the member is not looked at).
    TypeScript makes an index signature cover the declared members too,
    and refuses a declaration whose member type is not within the index
    type, so the declared type alone decides for a declared member. *)
Definition member_type (props : list (string * bool * ty))
           (index : option ty) (k : string) : option ty :=
  match prop_type k props with
  | Some e => Some e
  | None => index
  end.

(** A weak type: an object type without index signature that declares
    members, all of them optional. *)
Definition weak (props : list (string * bool * ty)) (index : option ty)
  : bool :=
  match index, props with
  | None, _ :: _ => forallb prop_optional props
  | _, _ => false
  end.

(** Whether a record type declares the member [k]. *)
Definition declares (props : list (string * bool * ty)) (k : string)
  : bool :=
  existsb (String.eqb k) (map prop_key props).

(** An object with the keys [ks] has no member, or has one that
    [props] declares. *)
Definition shares_member (props : list (string * bool * ty))
           (ks : list string) : bool :=
  match ks with
  | [] => true
  | _ :: _ => existsb (declares props) ks
  end.

(** The weak-type check: an object with members must share one with a
    weak type. *)
Definition weak_type_ok (props : list (string * bool * ty))
           (index : option ty) (ks : list string) : bool :=
  negb (weak props index) || shares_member props ks.

(** [conforms v t]: the JSON value [v] is assignable to [t].  A value
    conforms to a union when it conforms to one alternative; to [T[]]
    when it is an array of conforming items; to an object type when it
    is an object that passes the weak-type check, has every required
    member and whose members each conform to the type [member_type]
    gives them; [object] takes every non-primitive value, arrays
    included. *)
Fixpoint conforms (v : json) (t : ty) {struct v} : bool :=
  match resolve t with
  | None => false
  | Some alts =>
      existsb
        (fun a =>
           match a with
           | TString => is_string v
           | TBoolean => is_boolean v
           | TNull => is_null v
           | TUndefined => false
           | TAny => true
           | TObject => is_record v || is_array v
           | TArray e =>
               match v with
               | JArr vs => forallb (fun x => conforms x e) vs
               | _ => false
               end
           | TRecord props index =>
               match v with
               | JObj ms =>
                   weak_type_ok props index (keys ms)
                   && (required_present props (keys ms)
                       && forallb
                            (fun m =>
                               match member_type props index (fst m) with
                               | Some e => conforms (snd m) e
                               | None => true
                               end) ms)
               | _ => false
               end
           | TUnion _ _ | TRef _ => false
           end) alts
  end.

(** A document is a valid manifest when it is assignable to
    [Package.Json]. *)
Definition valid_manifest (document : json) : bool :=
  conforms document (TRef "Json").

(* ================================================================== *)
(** * Collecting violations *)
(* ================================================================== *)

Inductive segment : Type :=
| Key (k : string)
| Index (i : nat).

(** Field path, expected shape, actual value ([None]: the member is
    missing). *)
Record ShapeViolation : Type := mkViolation {
  path : list segment;
  expected : ty;
  actual : option json
}.

(** The violations for the required members of [props] that the keys
    [ks] lack, in declaration order. *)
Definition missing_required (p : list segment)
           (props : list (string * bool * ty)) (ks : list string)
  : list ShapeViolation :=
  flat_map
    (fun q =>
       if prop_optional q || existsb (String.eqb (prop_key q)) ks
       then []
       else [mkViolation (p ++ [Key (prop_key q)]) (prop_ty q) None])
    props.

(** Modelled from the spec: the validator, which the repository does not
    contain (it declares types only).  The spec asks for structural
    recursive matching that collects every violation in one pass, each
    with its field path, expected shape and actual value: "for each
    field, if present, check its value against the declared union of
    shapes; recurse for nested records".  A type with a single
    alternative that is an object or array type is entered, so that
    violations carry the path of the offending member or item (an object
    that fails the weak-type check is a violation at its own path); a
    value that matches no alternative of a proper union is one violation
    at the value's own path. *)
Fixpoint violations (p : list segment) (v : json) (t : ty) {struct v}
  : list ShapeViolation :=
  match resolve t with
  | Some [TArray e] =>
      match v with
      | JArr vs =>
          (fix items (i : nat) (l : list json) : list ShapeViolation :=
             match l with
             | [] => []
             | x :: r => violations (p ++ [Index i]) x e ++ items (S i) r
             end) 0 vs
      | _ => [mkViolation p t (Some v)]
      end
  | Some [TRecord props index] =>
      match v with
      | JObj ms =>
          (if weak_type_ok props index (keys ms) then []
           else [mkViolation p t (Some v)])
          ++ missing_required p props (keys ms)
          ++ flat_map
               (fun m =>
                  match member_type props index (fst m) with
                  | Some e => violations (p ++ [Key (fst m)]) (snd m) e
                  | None => []
                  end) ms
      | _ => [mkViolation p t (Some v)]
      end
  | _ => if conforms v t then [] else [mkViolation p t (Some v)]
  end.

(** Modelled from the spec: the single entry point
    [validate(document) -> list of violations]; the empty list means the
    document conforms. *)
Definition validate (document : json) : list ShapeViolation :=
  violations [] document (TRef "Json").

(* ================================================================== *)
(** * Sample documents *)
(* ================================================================== *)

Definition minimal_manifest : json :=
  JObj [("name", JStr "x"); ("version", JStr "1.0.0")].


(* ================================================================== *)
(** * Auxiliary definitions for the proofs *)
(* ================================================================== *)

(** What one alternative asks of a value: the body of [conforms] for a
    resolved alternative. *)
Definition accepts (v : json) (a : ty) : bool :=
  match a with
  | TString => is_string v
  | TBoolean => is_boolean v
  | TNull => is_null v
  | TUndefined => false
  | TAny => true
  | TObject => is_record v || is_array v
  | TArray e =>
      match v with
      | JArr vs => forallb (fun x => conforms x e) vs
      | _ => false
      end
  | TRecord props index =>
      match v with
      | JObj ms =>
          weak_type_ok props index (keys ms)
          && (required_present props (keys ms)
              && forallb
                   (fun m =>
                      match member_type props index (fst m) with
                      | Some e => conforms (snd m) e
                      | None => true
                      end) ms)
      | _ => false
      end
  | TUnion _ _ | TRef _ => false
  end.

(** The violations of the items of an array, numbered from [i]. *)
Definition item_violations (p : list segment) (e : ty)
  : nat -> list json -> list ShapeViolation :=
  fix items (i : nat) (l : list json) : list ShapeViolation :=
    match l with
    | [] => []
    | x :: r => violations (p ++ [Index i]) x e ++ items (S i) r
    end.

(** The violations of the members of an object. *)
Definition member_violations (p : list segment)
           (props : list (string * bool * ty)) (index : option ty)
           (ms : list (string * json)) : list ShapeViolation :=
  flat_map
    (fun m =>
       match member_type props index (fst m) with
       | Some e => violations (p ++ [Key (fst m)]) (snd m) e
       | None => []
       end) ms.

(** The members a record type requires. *)
Definition required_members (props : list (string * bool * ty))
  : list (string * bool * ty) :=
  filter (fun p => negb (prop_optional p)) props.

(** The condition names of [PackageExportsEntryObject]. *)
Definition condition_keys : list string :=
  ["require"; "import"; "node"; "default"; "types"].

Definition is_condition (k : string) : bool :=
  existsb (String.eqb k) condition_keys.

(** A record without members, or with a condition among its keys. *)
Definition has_condition (ms : list (string * json)) : bool :=
  match ms with
  | [] => true
  | _ :: _ => existsb (fun m => is_condition (fst m)) ms
  end.



(** The union as the claim on condition records words it: a path,
    [null] or a fallback sequence. *)
Definition path_null_or_sequence (v : json) : bool :=
  is_string v || is_null v || is_array v.


(** Every type expression written in [t], [t] included. *)
Fixpoint occurring (t : ty) : list ty :=
  t :: match t with
       | TArray e => occurring e
       | TUnion a b => occurring a ++ occurring b
       | TRecord props index =>
           flat_map (fun p => occurring (snd p)) props
           ++ match index with
              | Some e => occurring e
              | None => []
              end
       | _ => []
       end.

(** Every type expression of the declaration file, and a reference to
    each of its declarations. *)
Definition written_types : list ty :=
  flat_map (fun d => TRef (fst d) :: occurring (snd d))
           Package.declarations.

Definition resolves (t : ty) : bool :=
  match resolve t with
  | Some _ => true
  | None => false
  end.

(** The members of [Json] typed [Dependency]. *)
Definition dependency_members : list string :=
  ["dependencies"; "devDependencies"; "optionalDependencies";
   "peerDependencies"].

Arguments conforms : simpl never.
Arguments violations : simpl never.

(* ================================================================== *)
(** * Members of [Json] by shape *)
(* ================================================================== *)

(** Whether the value [v] is acceptable under the top-level key [k]: it
    conforms to the type [Json] declares for [k]; a key [Json] does not
    declare is not looked at. *)
Definition member_accepts (k : string) (v : json) : bool :=
  match prop_type k Package.Json_members with
  | Some e => conforms v e
  | None => true
  end.

Definition is_string_array (v : json) : bool :=
  match v with
  | JArr vs => forallb is_string vs
  | _ => false
  end.

(** The optional members typed [string]. *)
Definition string_members : list string :=
  ["description"; "homepage"; "license"; "main"; "type"; "types";
   "typings"; "packageManager"; "readme"; "module"].

(** The members typed [string[]]. *)
Definition string_array_members : list string :=
  ["keywords"; "files"; "os"; "cpu"].

(** The members typed [object]. *)
Definition object_members : list string :=
  ["config"; "resolutions"; "overrides"; "eslintConfig"; "prettier";
   "stylelint"; "ava"; "release"; "jscpd"].

(** The record form of [Person]. *)
Definition Person_record : ty :=
  TRecord [ req "name" TString; opt "url" TString; opt "email" TString ]
          None.

(** The keys [Json] declares, in source order. *)
Definition declared_keys : list string :=
  map prop_key Package.Json_members.

Definition has_index (t : ty) : bool :=
  match t with
  | TRecord _ (Some _) => true
  | _ => false
  end.

(** The record types written in the file that carry an index
    signature. *)
Definition indexed_records : list ty := filter has_index written_types.

(** An alternative that looks at the value: neither a union nor a
    reference. *)
Definition is_head (t : ty) : bool :=
  match t with
  | TUnion _ _ | TRef _ => false
  | _ => true
  end.

Definition well_resolved (t : ty) : bool :=
  match resolve t with
  | Some (a :: alts) => forallb is_head (a :: alts)
  | _ => false
  end.

(** The record types written in the file that are weak. *)
Definition is_weak_record (t : ty) : bool :=
  match t with
  | TRecord props index => weak props index
  | _ => false
  end.

Definition weak_records : list ty := filter is_weak_record written_types.

(* ================================================================== *)
(** * Unfolding equations *)
(* ================================================================== *)




Lemma conforms_eq (v : json) (t : ty) :
  conforms v t =
  match resolve t with
  | None => false
  | Some alts => existsb (accepts v) alts
  end.
Proof. destruct v; reflexivity. Qed.

Lemma violations_eq (p : list segment) (v : json) (t : ty) :
  violations p v t =
  match resolve t with
  | Some [TArray e] =>
      match v with
      | JArr vs => item_violations p e 0 vs
      | _ => [mkViolation p t (Some v)]
      end
  | Some [TRecord props index] =>
      match v with
      | JObj ms =>
          (if weak_type_ok props index (keys ms) then []
           else [mkViolation p t (Some v)])
          ++ missing_required p props (keys ms)
          ++ member_violations p props index ms
      | _ => [mkViolation p t (Some v)]
      end
  | _ => if conforms v t then [] else [mkViolation p t (Some v)]
  end.
Proof. destruct v; reflexivity. Qed.

Lemma weak_type_ok_strong (props : list (string * bool * ty))
      (index : option ty) (ks : list string) :
  weak props index = false -> weak_type_ok props index ks = true.
Proof. intros H. unfold weak_type_ok. now rewrite H. Qed.

Lemma accepts_record (ms : list (string * json))
      (props : list (string * bool * ty)) (index : option ty) :
  weak props index = false ->
  accepts (JObj ms) (TRecord props index) =
  required_present props (keys ms)
  && forallb (fun m => match member_type props index (fst m) with
                       | Some e => conforms (snd m) e
                       | None => true
                       end) ms.
Proof.
  intros H. cbn [accepts]. now rewrite weak_type_ok_strong by exact H.
Qed.

Lemma conforms_single (v : json) (t a : ty) :
  resolve t = Some [a] -> conforms v t = accepts v a.
Proof.
  intros R. rewrite conforms_eq, R. simpl. apply orb_false_r.
Qed.

Lemma conforms_record (ms : list (string * json)) (t : ty)
      (props : list (string * bool * ty)) (index : option ty) :
  resolve t = Some [TRecord props index] ->
  weak props index = false ->
  conforms (JObj ms) t =
  required_present props (keys ms)
  && forallb (fun m => match member_type props index (fst m) with
                       | Some e => conforms (snd m) e
                       | None => true
                       end) ms.
Proof.
  intros R H. rewrite (conforms_single _ _ R). now apply accepts_record.
Qed.

Lemma conforms_array (vs : list json) (t e : ty) :
  resolve t = Some [TArray e] ->
  conforms (JArr vs) t = forallb (fun x => conforms x e) vs.
Proof. intros R. now rewrite (conforms_single _ _ R). Qed.

Lemma conforms_TString (v : json) : conforms v TString = is_string v.
Proof. now rewrite (@conforms_single v TString TString). Qed.

Lemma conforms_TBoolean (v : json) : conforms v TBoolean = is_boolean v.
Proof. now rewrite (@conforms_single v TBoolean TBoolean). Qed.

Lemma is_string_inv (v : json) : is_string v = true -> exists s, v = JStr s.
Proof. destruct v; simpl; try discriminate. eauto. Qed.

Lemma is_boolean_inv (v : json) :
  is_boolean v = true -> exists b, v = JBool b.
Proof. destruct v; simpl; try discriminate. eauto. Qed.

(** ** Required members *)

Lemma missing_required_nil (p : list segment)
      (props : list (string * bool * ty)) (ks : list string) :
  missing_required p props ks = [] <-> required_present props ks = true.
Proof.
  unfold missing_required, required_present.
  induction props as [|q props IH]; simpl.
  - tauto.
  - destruct (prop_optional q || existsb (String.eqb (prop_key q)) ks);
      simpl.
    + exact IH.
    + split; discriminate.
Qed.

Lemma has_key_In (k : string) (ms : list (string * json)) :
  has_key k ms = true <-> exists v, In (k, v) ms.
Proof.
  unfold has_key, keys. rewrite existsb_exists. split.
  - intros (k' & Hin & E). apply String.eqb_eq in E. subst k'.
    apply in_map_iff in Hin. destruct Hin as ([k' v] & E & Hin).
    simpl in E. subst k'. eauto.
  - intros (v & Hin). exists k. split.
    + apply in_map_iff. exists (k, v). auto.
    + apply String.eqb_refl.
Qed.

(** ** The validator reports nothing exactly on conforming values *)

Lemma app_nil_iff (A : Type) (l1 l2 : list A) :
  l1 ++ l2 = [] <-> l1 = [] /\ l2 = [].
Proof.
  split.
  - intros H. now apply app_eq_nil in H.
  - intros [-> ->]. reflexivity.
Qed.

Lemma violations_other (p : list segment) (v : json) (t : ty) :
  (forall e, resolve t <> Some [TArray e]) ->
  (forall props index, resolve t <> Some [TRecord props index]) ->
  violations p v t =
  if conforms v t then [] else [mkViolation p t (Some v)].
Proof.
  intros Harr Hrec. rewrite violations_eq.
  destruct (resolve t) as [[|a [|a' alts]]|]; try reflexivity;
    destruct a; try reflexivity.
  - now elim (Harr a).
  - now elim (Hrec props index).
Qed.

Lemma violations_nil_iff (v : json) :
  forall (p : list segment) (t : ty),
    violations p v t = [] <-> conforms v t = true.
Proof.
  assert (Hother : forall p v t,
             violations p v t =
             (if conforms v t then [] else [mkViolation p t (Some v)]) ->
             violations p v t = [] <-> conforms v t = true).
  { intros p v' t ->. destruct (conforms v' t); split; congruence. }
  induction v as [ | b | n | s | vs IH | ms IH ] using json_nested_ind;
    intros p t.
  1-4: apply Hother; rewrite violations_eq;
    destruct (resolve t) as [[|a [|a' alts]]|] eqn:R; try reflexivity;
    destruct a; try reflexivity;
    rewrite (conforms_single _ _ R); reflexivity.
  - destruct (resolve t) as [[|a [|a' alts]]|] eqn:R.
    2: destruct a.
    all: try (apply Hother, violations_other; intros; congruence).
    2: { rewrite violations_eq, R, (conforms_single _ _ R).
         simpl. split; discriminate. }
    rewrite violations_eq, R, (conforms_array _ _ R).
    generalize 0 as i. induction IH as [|x r Hx _ IHr]; intros i; simpl.
    + tauto.
    + rewrite app_nil_iff, andb_true_iff, Hx, IHr. tauto.
  - destruct (resolve t) as [[|a [|a' alts]]|] eqn:R.
    2: destruct a.
    all: try (apply Hother, violations_other; intros; congruence).
    1: { rewrite violations_eq, R, (conforms_single _ _ R).
         simpl. split; discriminate. }
    rewrite violations_eq, R, (conforms_single _ _ R). cbn [accepts].
    rewrite !app_nil_iff, !andb_true_iff, missing_required_nil.
    cut (member_violations p props index ms = [] <->
         forallb (fun m => match member_type props index (fst m) with
                           | Some e => conforms (snd m) e
                           | None => true
                           end) ms = true).
    { intros E. rewrite E.
      destruct (weak_type_ok props index (keys ms));
        intuition congruence. }
    unfold member_violations.
    induction IH as [|m r Hm _ IHr]; simpl.
    + tauto.
    + rewrite app_nil_iff, andb_true_iff, IHr.
      destruct (member_type props index (fst m)); [rewrite Hm|]; tauto.
Qed.

(** [validate] returns the empty list exactly on valid manifests. *)
Lemma validate_nil_iff (document : json) :
  validate document = [] <-> valid_manifest document = true.
Proof. apply violations_nil_iff. Qed.

(* ================================================================== *)
(** * Facts about the declarations *)
(* ================================================================== *)

Lemma forallb_ext_in (A : Type) (f g : A -> bool) (l : list A) :
  (forall x, In x l -> f x = g x) -> forallb f l = forallb g l.
Proof.
  induction l as [|x l IH]; intros H; [reflexivity|].
  cbn [forallb]. rewrite (H x (or_introl eq_refl)), IH; [reflexivity|].
  intros y Hy. apply H. now right.
Qed.


Lemma forallb_members (f : string * json -> bool)
      (ms : list (string * json)) :
  forallb f ms = true <-> (forall k v, In (k, v) ms -> f (k, v) = true).
Proof.
  rewrite forallb_forall. split.
  - intros H k v Hin. now apply H.
  - intros H [k v] Hin. now apply H.
Qed.

Lemma required_present_members (props : list (string * bool * ty))
      (ks : list string) :
  required_present props ks =
  forallb (fun p => existsb (String.eqb (prop_key p)) ks)
          (required_members props).
Proof.
  unfold required_present, required_members.
  induction props as [|q props IH]; [reflexivity|].
  cbn [forallb filter]. rewrite IH.
  destruct (prop_optional q); reflexivity.
Qed.

Lemma missing_required_members (p : list segment)
      (props : list (string * bool * ty)) (ks : list string) :
  missing_required p props ks =
  flat_map
    (fun q => if existsb (String.eqb (prop_key q)) ks then []
              else [mkViolation (p ++ [Key (prop_key q)]) (prop_ty q) None])
    (required_members props).
Proof.
  unfold missing_required, required_members.
  induction props as [|q props IH]; [reflexivity|].
  cbn [flat_map filter]. rewrite IH.
  destruct (prop_optional q); reflexivity.
Qed.

(** [name] and [version] are the only members of [Json] written without
    the [?] mark. *)
Lemma required_members_Json :
  required_members Package.Json_members =
  [req "name" TString; req "version" TString].
Proof. reflexivity. Qed.

Lemma resolve_Json : resolve (TRef "Json") = Some [Package.Json].
Proof. reflexivity. Qed.

Lemma valid_manifest_eq (doc : list (string * json)) :
  valid_manifest (JObj doc) =
  has_key "name" doc && has_key "version" doc
  && forallb (fun m => match prop_type (fst m) Package.Json_members with
                       | Some e => conforms (snd m) e
                       | None => true
                       end) doc.
Proof.
  unfold valid_manifest.
  rewrite (conforms_record _ _ resolve_Json eq_refl).
  rewrite required_present_members, required_members_Json.
  cbn [forallb prop_key req fst]. rewrite andb_true_r.
  f_equal. apply forallb_ext_in. intros m _. unfold member_type.
  now destruct (prop_type (fst m) Package.Json_members).
Qed.

Lemma valid_manifest_record (v : json) :
  valid_manifest v = true -> exists doc, v = JObj doc.
Proof.
  unfold valid_manifest. rewrite (conforms_single _ _ resolve_Json).
  destruct v; try discriminate. eauto.
Qed.

Lemma has_key_without (k k' : string) (ms : list (string * json)) :
  k <> k' -> has_key k (without k' ms) = has_key k ms.
Proof.
  intros Hne. unfold has_key, keys, without.
  induction ms as [|[a v] ms IH]; [reflexivity|].
  cbn [filter fst]. destruct (String.eqb_spec k' a) as [->|Hk'];
    cbn [negb map existsb fst].
  - rewrite IH. apply String.eqb_neq in Hne. now rewrite Hne.
  - now rewrite IH.
Qed.
(* ================================================================== *)
(** * Required and optional members of the manifest *)
(* ================================================================== *)

Lemma forallb_without (f : string * json -> bool) (k : string)
      (ms : list (string * json)) :
  forallb f ms = true -> forallb f (without k ms) = true.
Proof.
  rewrite !forallb_forall. intros H m Hin.
  apply H. unfold without in Hin. now apply filter_In in Hin.
Qed.

Lemma prop_type_name :
  prop_type "name" Package.Json_members = Some TString.
Proof. reflexivity. Qed.

Lemma prop_type_version :
  prop_type "version" Package.Json_members = Some TString.
Proof. reflexivity. Qed.

Lemma valid_manifest_iff (doc : list (string * json)) :
  valid_manifest (JObj doc) = true <->
  (exists s, In ("name", JStr s) doc)
  /\ (exists s, In ("version", JStr s) doc)
  /\ (forall k v e, In (k, v) doc ->
                    prop_type k Package.Json_members = Some e ->
                    conforms v e = true).
Proof.
  rewrite valid_manifest_eq, !andb_true_iff, forallb_forall. split.
  - intros [[Hn Hv] Hall].
    assert (Hshape : forall k v e, In (k, v) doc ->
                       prop_type k Package.Json_members = Some e ->
                       conforms v e = true).
    { intros k v e Hin He. specialize (Hall _ Hin).
      cbn [fst snd] in Hall. now rewrite He in Hall. }
    apply has_key_In in Hn. destruct Hn as [vn Hn].
    apply has_key_In in Hv. destruct Hv as [vv Hv].
    pose proof (Hshape _ _ _ Hn prop_type_name) as Sn.
    pose proof (Hshape _ _ _ Hv prop_type_version) as Sv.
    rewrite conforms_TString in Sn, Sv.
    apply is_string_inv in Sn. destruct Sn as [sn ->].
    apply is_string_inv in Sv. destruct Sv as [sv ->].
    eauto.
  - intros ([sn Hn] & [sv Hv] & Hshape). repeat split.
    + apply has_key_In. eauto.
    + apply has_key_In. eauto.
    + intros [k v] Hin. cbn [fst snd].
      destruct (prop_type k Package.Json_members) eqn:He; eauto.
Qed.

(** C1.  [name] and [version] are what a manifest must have: a document
    is valid exactly when both are present as strings and every member it
    carries has the shape its declaration gives; no other member is
    required, so any member other than these two can be dropped from a
    valid document, a document made of a [name] and a [version] string
    alone is valid, and the minimal document [{name: "x", version:
    "1.0.0"}] validates with zero violations. *)
Theorem manifest_requires_name_and_version :
  (forall doc,
      valid_manifest (JObj doc) = true <->
      (exists s, In ("name", JStr s) doc)
      /\ (exists s, In ("version", JStr s) doc)
      /\ (forall k v e, In (k, v) doc ->
                        prop_type k Package.Json_members = Some e ->
                        conforms v e = true))
  /\ (forall doc k,
         k <> "name" -> k <> "version" ->
         valid_manifest (JObj doc) = true ->
         valid_manifest (JObj (without k doc)) = true)
  /\ (forall n v : string,
         valid_manifest (JObj [("name", JStr n); ("version", JStr v)])
         = true)
  /\ valid_manifest minimal_manifest = true
  /\ validate minimal_manifest = [].
Proof.
  split; [exact valid_manifest_iff|].
  split.
  { intros doc k Hn Hv. rewrite !valid_manifest_eq, !andb_true_iff.
    intros [[H1 H2] H3]. repeat split.
    - rewrite has_key_without; auto.
    - rewrite has_key_without; auto.
    - now apply forallb_without. }
  split; [intros n v; reflexivity|].
  split; [reflexivity|].
  apply validate_nil_iff. reflexivity.
Qed.

(** The parts of [manifest_requires_name_and_version] at a document with
    a [license] member. *)
Lemma manifest_requires_name_and_version_witness :
  valid_manifest
    (JObj (without "license"
                   [("name", JStr "x"); ("license", JStr "MIT");
                    ("version", JStr "1.0.0")])) = true
  /\ (exists s, In ("name", JStr s)
                   [("name", JStr "x"); ("license", JStr "MIT");
                    ("version", JStr "1.0.0")]).
Proof.
  destruct manifest_requires_name_and_version as (Hiff & Hdrop & _).
  split.
  - apply Hdrop; [discriminate | discriminate | reflexivity].
  - apply (proj1 (Hiff _)). reflexivity.
Defined.

(* ================================================================== *)
(** * A missing required member *)
(* ================================================================== *)

Lemma validate_eq (doc : list (string * json)) :
  validate (JObj doc) =
  (if has_key "name" doc then []
   else [mkViolation [Key "name"] TString None])
  ++ (if has_key "version" doc then []
      else [mkViolation [Key "version"] TString None])
  ++ member_violations [] Package.Json_members None doc.
Proof.
  unfold validate. rewrite violations_eq, resolve_Json.
  unfold Package.Json.
  rewrite weak_type_ok_strong by reflexivity. cbn [app].
  rewrite missing_required_members, required_members_Json.
  cbn [flat_map prop_key prop_ty req fst snd app].
  unfold has_key. now rewrite app_nil_r, <- app_assoc.
Qed.

Lemma member_violations_cons (p : list segment)
      (props : list (string * bool * ty)) (index : option ty)
      (k : string) (v : json) (ms : list (string * json)) (e : ty) :
  member_type props index k = Some e ->
  member_violations p props index ((k, v) :: ms) =
  violations (p ++ [Key k]) v e ++ member_violations p props index ms.
Proof.
  intros He. unfold member_violations. cbn [flat_map fst snd].
  now rewrite He.
Qed.

Lemma has_key_cons (k k' : string) (v : json) (ms : list (string * json)) :
  has_key k ((k', v) :: ms) = String.eqb k k' || has_key k ms.
Proof. reflexivity. Qed.

(** C2.  When a document lacks [name] (or [version]), the validator
    reports the violation "member missing, string expected" at that
    member's path, and that is all the absence causes: the remaining
    violations, before and after it, are exactly the ones reported for
    the same document with the member supplied. *)
Theorem missing_required_member_reported
        (doc : list (string * json)) (k s : string) :
  k = "name" \/ k = "version" ->
  has_key k doc = false ->
  exists before after,
    validate (JObj doc) =
      before ++ mkViolation [Key k] TString None :: after
    /\ validate (JObj ((k, JStr s) :: doc)) = before ++ after.
Proof.
  intros Hk Hmiss.
  assert (Hstr : forall q, violations q (JStr s) TString = []).
  { intros q. apply violations_nil_iff. reflexivity. }
  rewrite !validate_eq, !has_key_cons.
  destruct Hk as [-> | ->]; rewrite Hmiss.
  - exists [], ((if has_key "version" doc then []
                 else [mkViolation [Key "version"] TString None])
                ++ member_violations [] Package.Json_members None doc).
    split; [reflexivity|].
    rewrite member_violations_cons with (e := TString) by reflexivity.
    rewrite Hstr.
    reflexivity.
  - exists (if has_key "name" doc then []
            else [mkViolation [Key "name"] TString None]),
           (member_violations [] Package.Json_members None doc).
    split; [reflexivity|].
    rewrite member_violations_cons with (e := TString) by reflexivity.
    rewrite Hstr.
    reflexivity.
Qed.

(** [missing_required_member_reported] at a document that has a version,
    a malformed [keywords] member and no name. *)
Lemma missing_required_member_reported_witness :
  exists before after,
    validate (JObj [("version", JStr "1.0.0"); ("keywords", JNum "7")]) =
      before ++ mkViolation [Key "name"] TString None :: after
    /\ validate (JObj [("name", JStr "x"); ("version", JStr "1.0.0");
                       ("keywords", JNum "7")]) = before ++ after.
Proof.
  apply (@missing_required_member_reported
           [("version", JStr "1.0.0"); ("keywords", JNum "7")] "name" "x").
  - left. reflexivity.
  - reflexivity.
Defined.

Example validate_reports_each_problem :
  validate (JObj [("version", JStr "1.0.0"); ("keywords", JNum "7")]) =
  [ mkViolation [Key "name"] TString None;
    mkViolation [Key "keywords"] (TArray TString) (Some (JNum "7")) ].
Proof. reflexivity. Qed.

(* ================================================================== *)
(** * The [exports] union *)
(* ================================================================== *)

Lemma resolve_EntryOrFallback :
  resolve (TRef "PackageExportsEntryOrFallback") =
  Some [TString; TNull; Package.PackageExportsEntryObject;
        TArray (TRef "PackageExportsEntry")].
Proof. reflexivity. Qed.


Lemma resolve_EntryObject :
  resolve (TRef "PackageExportsEntryObject") =
  Some [Package.PackageExportsEntryObject].
Proof. reflexivity. Qed.

Lemma resolve_Fallback :
  resolve (TRef "PackageExportsFallback") =
  Some [TArray (TRef "PackageExportsEntry")].
Proof. reflexivity. Qed.

Lemma resolve_exports :
  resolve Package.Json_exports =
  Some [TString; TNull;
        TRecord [] (Some (TRef "PackageExportsEntryOrFallback"));
        Package.PackageExportsEntryObject;
        TArray (TRef "PackageExportsEntry")].
Proof. reflexivity. Qed.

(** What [PackageExportsEntryObject] asks of a member: a condition has
    the type [PackageExportsEntryOrFallback], any other key is not
    declared. *)
Lemma member_type_condition (k : string) :
  member_type
    [ opt "require" (TRef "PackageExportsEntryOrFallback");
      opt "import" (TRef "PackageExportsEntryOrFallback");
      opt "node" (TRef "PackageExportsEntryOrFallback");
      opt "default" (TRef "PackageExportsEntryOrFallback");
      opt "types" (TRef "PackageExportsEntryOrFallback") ] None k =
  if is_condition k then Some (TRef "PackageExportsEntryOrFallback")
  else None.
Proof.
  unfold member_type, is_condition, condition_keys.
  cbn [prop_type existsb prop_key prop_ty opt fst snd].
  repeat match goal with
         | |- context [String.eqb k ?c] => destruct (String.eqb k c)
         end; reflexivity.
Qed.

Lemma existsb_map (A B : Type) (f : B -> bool) (g : A -> B)
      (l : list A) :
  existsb f (map g l) = existsb (fun x => f (g x)) l.
Proof.
  induction l as [|x l IH]; [reflexivity|].
  cbn [map existsb]. now rewrite IH.
Qed.

(** [PackageExportsEntryObject] is a weak type: a record with members
    and no condition among them is not one. *)
Lemma weak_type_ok_EntryObject (ms : list (string * json)) :
  weak_type_ok
    [ opt "require" (TRef "PackageExportsEntryOrFallback");
      opt "import" (TRef "PackageExportsEntryOrFallback");
      opt "node" (TRef "PackageExportsEntryOrFallback");
      opt "default" (TRef "PackageExportsEntryOrFallback");
      opt "types" (TRef "PackageExportsEntryOrFallback") ] None (keys ms) =
  has_condition ms.
Proof.
  unfold weak_type_ok.
  cbn [weak forallb prop_optional opt fst snd andb negb orb].
  destruct ms as [|m ms]; [reflexivity|].
  unfold shares_member, keys, has_condition. cbn [map].
  change (fst m :: map fst ms) with (map fst (m :: ms)).
  apply existsb_map.
Qed.

(** A record is a [PackageExportsEntryObject] when it is empty or has a
    condition, and its condition members are
    [PackageExportsEntryOrFallback] values. *)
Lemma accepts_EntryObject (ms : list (string * json)) :
  accepts (JObj ms) Package.PackageExportsEntryObject =
  has_condition ms
  && forallb (fun m => negb (is_condition (fst m))
                       || conforms (snd m)
                                   (TRef "PackageExportsEntryOrFallback"))
             ms.
Proof.
  unfold Package.PackageExportsEntryObject. cbn [accepts].
  rewrite weak_type_ok_EntryObject. f_equal.
  rewrite required_present_members. cbn [required_members filter forallb
    prop_optional opt fst snd negb andb].
  apply forallb_ext_in. intros m _. rewrite member_type_condition.
  now destruct (is_condition (fst m)).
Qed.



Lemma conforms_EntryOrFallback_record (ms : list (string * json)) :
  conforms (JObj ms) (TRef "PackageExportsEntryOrFallback") =
  has_condition ms
  && forallb (fun m => negb (is_condition (fst m))
                       || conforms (snd m)
                                   (TRef "PackageExportsEntryOrFallback"))
             ms.
Proof.
  rewrite conforms_eq, resolve_EntryOrFallback.
  cbn [existsb]. rewrite accepts_EntryObject.
  cbn [accepts is_string is_null orb]. now rewrite orb_false_r.
Qed.

(** The top-level [exports] type adds the sub-path record, all of whose
    values are typed, to [PackageExportsEntryOrFallback]. *)
Lemma conforms_exports (v : json) :
  conforms v Package.Json_exports =
  match v with
  | JObj ms =>
      forallb (fun m => conforms (snd m)
                                 (TRef "PackageExportsEntryOrFallback")) ms
      || conforms v (TRef "PackageExportsEntryOrFallback")
  | _ => conforms v (TRef "PackageExportsEntryOrFallback")
  end.
Proof.
  destruct v; reflexivity.
Qed.




Lemma has_condition_iff (ms : list (string * json)) :
  has_condition ms = true <->
  ms = [] \/ (exists k v, In (k, v) ms /\ is_condition k = true).
Proof.
  destruct ms as [|m ms]; [cbn; tauto|].
  unfold has_condition. rewrite existsb_exists. split.
  - intros ([k v] & Hin & Hc). right. eauto.
  - intros [H|(k & v & Hin & Hc)]; [discriminate|].
    exists (k, v). auto.
Qed.

(** Condition records, at every level. *)
Lemma conforms_condition_record (ms : list (string * json)) :
  conforms (JObj ms) (TRef "PackageExportsEntryOrFallback") = true <->
  (ms = [] \/ (exists k v, In (k, v) ms /\ is_condition k = true))
  /\ (forall k v, In (k, v) ms -> is_condition k = true ->
                  conforms v (TRef "PackageExportsEntryOrFallback") = true).
Proof.
  rewrite conforms_EntryOrFallback_record, andb_true_iff,
    has_condition_iff, forallb_members.
  apply and_iff_compat_l. cbn [fst snd]. split.
  - intros H k v Hin Hc. specialize (H k v Hin). now rewrite Hc in H.
  - intros H k v Hin. destruct (is_condition k) eqn:Hc; [|reflexivity].
    cbn [negb orb]. eauto.
Qed.

Lemma conforms_exports_record (ms : list (string * json)) :
  conforms (JObj ms) Package.Json_exports = true <->
  (forall k v, In (k, v) ms ->
               conforms v (TRef "PackageExportsEntryOrFallback") = true)
  \/ conforms (JObj ms) (TRef "PackageExportsEntryOrFallback") = true.
Proof.
  rewrite conforms_exports, orb_true_iff, forallb_members. tauto.
Qed.







Example nested_sequence_rejected_by_validate :
  validate (JObj [("name", JStr "x"); ("version", JStr "1.0.0");
                  ("exports", JArr [JArr [JStr "./a.js"]])]) =
  [ mkViolation [Key "exports"] Package.Json_exports
                (Some (JArr [JArr [JStr "./a.js"]])) ].
Proof. reflexivity. Qed.

(* ================================================================== *)
(** * Condition records *)
(* ================================================================== *)

Lemma conforms_EntryOrFallback_cases (v : json) :
  conforms v (TRef "PackageExportsEntryOrFallback") = true <->
  is_string v = true
  \/ is_null v = true
  \/ (is_record v = true
      /\ conforms v (TRef "PackageExportsEntryObject") = true)
  \/ (is_array v = true
      /\ conforms v (TRef "PackageExportsFallback") = true).
Proof.
  rewrite !conforms_eq, resolve_EntryOrFallback, resolve_EntryObject,
    resolve_Fallback.
  destruct v; cbn [existsb accepts is_string is_null is_record is_array
                   Package.PackageExportsEntryObject orb];
    rewrite ?orb_false_r; intuition congruence.
Qed.

(** C4, as amended.  A bare string and [null] are accepted as [exports];
    a record whose keys are among [require], [import], [node], [default]
    and [types] is accepted exactly when the value of each member is a
    [PackageExportsEntryOrFallback], and that union is: a path, [null],
    a condition record, or a fallback sequence. *)
Theorem exports_condition_record_accepted :
  (forall s, conforms (JStr s) Package.Json_exports = true)
  /\ conforms JNull Package.Json_exports = true
  /\ (forall ms,
         (forall k v, In (k, v) ms -> In k condition_keys) ->
         (conforms (JObj ms) Package.Json_exports = true <->
          (forall k v, In (k, v) ms ->
                       conforms v (TRef "PackageExportsEntryOrFallback")
                       = true)))
  /\ (forall v,
         conforms v (TRef "PackageExportsEntryOrFallback") = true <->
         is_string v = true
         \/ is_null v = true
         \/ (is_record v = true
             /\ conforms v (TRef "PackageExportsEntryObject") = true)
         \/ (is_array v = true
             /\ conforms v (TRef "PackageExportsFallback") = true)).
Proof.
  split; [intros s; reflexivity|].
  split; [reflexivity|].
  split; [|exact conforms_EntryOrFallback_cases].
  intros ms Hkeys. rewrite conforms_exports_record. split.
  - intros [H|H]; [exact H|].
    apply conforms_condition_record in H. destruct H as [_ H].
    intros k v Hin. apply (H k v Hin).
    unfold is_condition. apply existsb_exists. exists k.
    split; [eauto | apply String.eqb_refl].
  - intros H. now left.
Qed.

(** [exports_condition_record_accepted] at a record whose [import]
    condition is itself a condition record. *)
Lemma exports_condition_record_accepted_witness :
  conforms (JObj [("import", JObj [("node", JStr "./a.js")]);
                  ("default", JStr "./a.cjs")])
           Package.Json_exports = true.
Proof.
  destruct exports_condition_record_accepted as (_ & _ & Hrec & _).
  apply Hrec.
  - intros k v [E|[E|[]]]; injection E as <- _; simpl; tauto.
  - intros k v [E|[E|[]]]; injection E as _ <-; reflexivity.
Defined.

(** C4, as stated, fails: with the union read as "path, [null] or
    fallback sequence", the record [{import: {node: "./a.js"}}] is
    accepted although the value of [import] is a condition record, which
    is none of the three (whatever is asked of the items of a
    sequence). *)
Lemma condition_record_value_counterexample :
  ~ (forall ms,
        (forall k v, In (k, v) ms -> In k condition_keys) ->
        (conforms (JObj ms) Package.Json_exports = true <->
         (forall k v, In (k, v) ms -> path_null_or_sequence v = true))).
Proof.
  intros H.
  specialize (H [("import", JObj [("node", JStr "./a.js")])]).
  destruct H as [H _].
  - intros k v [E|[]]. injection E as <- _. simpl. tauto.
  - specialize (H eq_refl "import" (JObj [("node", JStr "./a.js")])
                  (or_introl eq_refl)).
    discriminate.
Qed.

(* ================================================================== *)
(** * Open records *)
(* ================================================================== *)

Lemma prop_type_In (k : string) (props : list (string * bool * ty))
      (e : ty) :
  prop_type k props = Some e ->
  exists p, In p props /\ prop_key p = k /\ prop_ty p = e.
Proof.
  induction props as [|p props IH]; [discriminate|].
  cbn [prop_type]. destruct (String.eqb_spec k (prop_key p)) as [->|Hne].
  - intros [= <-]. exists p. split; [now left | auto].
  - intros H. destruct (IH H) as (q & Hin & Hq). exists q.
    split; [now right | exact Hq].
Qed.

Lemma conforms_string_or_undefined (v : json) :
  conforms v (TString :|: TUndefined)%ty = is_string v.
Proof. rewrite conforms_eq. cbn. now rewrite !orb_false_r. Qed.

(** ** [Dependency] *)

Lemma resolve_Dependency :
  resolve (TRef "Dependency") = Some [Package.Dependency].
Proof. reflexivity. Qed.

Lemma conforms_Dependency (ms : list (string * json)) :
  conforms (JObj ms) (TRef "Dependency") =
  forallb (fun m => is_string (snd m)) ms.
Proof.
  rewrite (conforms_record _ _ resolve_Dependency eq_refl).
  cbn [required_present forallb andb]. apply forallb_ext_in.
  intros m _. cbn [member_type prop_type]. apply conforms_TString.
Qed.

Lemma valid_manifest_cons (k : string) (v : json) (e : ty)
      (doc : list (string * json)) :
  prop_type k Package.Json_members = Some e ->
  conforms v e = true ->
  valid_manifest (JObj doc) = true ->
  valid_manifest (JObj ((k, v) :: doc)) = true.
Proof.
  intros He Hv. rewrite !valid_manifest_eq, !has_key_cons.
  cbn [forallb fst snd]. rewrite He, Hv, !andb_true_iff.
  intros [[-> ->] ->]. now rewrite !orb_true_r.
Qed.

Lemma dependency_member_type (f : string) :
  In f dependency_members ->
  prop_type f Package.Json_members = Some (TRef "Dependency")
  /\ f <> "name" /\ f <> "version".
Proof.
  intros [<-|[<-|[<-|[<-|[]]]]]; (split; [reflexivity|split; discriminate]).
Qed.

(** C7.  [dependencies], [devDependencies], [optionalDependencies] and
    [peerDependencies] are open records: when all the values of such a
    record are strings, whatever its keys, the record is a [Dependency],
    the validator reports nothing under that member, and the member
    changes nothing in what is reported for the rest of the document. *)
Theorem dependency_record_open
        (f : string) (deps doc : list (string * json)) :
  In f dependency_members ->
  (forall k v, In (k, v) deps -> is_string v = true) ->
  conforms (JObj deps) (TRef "Dependency") = true
  /\ violations [Key f] (JObj deps) (TRef "Dependency") = []
  /\ validate (JObj ((f, JObj deps) :: doc)) = validate (JObj doc)
  /\ (valid_manifest (JObj doc) = true ->
      valid_manifest (JObj ((f, JObj deps) :: doc)) = true).
Proof.
  intros Hf Hstr. destruct (dependency_member_type Hf) as (Ht & Hn & Hv).
  assert (Hc : conforms (JObj deps) (TRef "Dependency") = true).
  { rewrite conforms_Dependency. apply forallb_members. exact Hstr. }
  assert (Hnone : forall p,
             violations p (JObj deps) (TRef "Dependency") = []).
  { intros p. now apply violations_nil_iff. }
  split; [exact Hc|]. split; [apply Hnone|]. split.
  - rewrite !validate_eq, !has_key_cons.
    apply String.eqb_neq in Hn, Hv.
    rewrite String.eqb_sym in Hn. rewrite String.eqb_sym in Hv.
    rewrite Hn, Hv. cbn [orb].
    rewrite member_violations_cons with (e := TRef "Dependency").
    + now rewrite Hnone.
    + unfold member_type. now rewrite Ht.
  - now apply valid_manifest_cons with (e := TRef "Dependency").
Qed.

(** [dependency_record_open] at a [devDependencies] record with a scoped
    package name and a tarball URL. *)
Lemma dependency_record_open_witness :
  validate
    (JObj [("devDependencies",
            JObj [("@scope/not-a-real-package", JStr "^1.2.3 || >=2");
                  ("left pad", JStr "https://example.org/l.tgz")]);
           ("name", JStr "x"); ("version", JStr "1.0.0")]) =
  validate minimal_manifest.
Proof.
  apply (@dependency_record_open "devDependencies"
           [("@scope/not-a-real-package", JStr "^1.2.3 || >=2");
            ("left pad", JStr "https://example.org/l.tgz")]
           [("name", JStr "x"); ("version", JStr "1.0.0")]).
  - simpl. tauto.
  - intros k v [E|[E|[]]]; injection E as _ <-; reflexivity.
Defined.

(** ** [engines] *)

Lemma conforms_engines (ms : list (string * json)) :
  conforms (JObj ms) Package.Json_engines =
  has_key "node" ms && forallb (fun m => is_string (snd m)) ms.
Proof.
  rewrite conforms_record
    with (props := [req "node" TString]) (index := Some TString)
    by reflexivity.
  rewrite required_present_members.
  cbn [required_members filter prop_optional prop_key req fst snd negb
       forallb].
  rewrite andb_true_r. f_equal. apply forallb_ext_in. intros m _.
  unfold member_type. cbn [prop_type prop_key prop_ty req fst snd].
  destruct (String.eqb (fst m) "node"); apply conforms_TString.
Qed.

(** C6.  An [engines] record is valid exactly when it has a [node]
    member and all its values, [node]'s and any further entry's, are
    strings: without a [node] key it is not valid, and
    [{node: ">=18"}] alone is. *)
Theorem engines_requires_node :
  (forall ms,
      conforms (JObj ms) Package.Json_engines = true <->
      has_key "node" ms = true
      /\ (forall k v, In (k, v) ms -> is_string v = true))
  /\ (forall ms, has_key "node" ms = false ->
                 conforms (JObj ms) Package.Json_engines = false)
  /\ conforms (JObj [("node", JStr ">=18")]) Package.Json_engines = true.
Proof.
  split.
  { intros ms. rewrite conforms_engines, andb_true_iff.
    apply and_iff_compat_l. apply forallb_members. }
  split.
  { intros ms H. now rewrite conforms_engines, H. }
  reflexivity.
Qed.

Example engines_without_node_reported :
  validate (JObj [("name", JStr "x"); ("version", JStr "1.0.0");
                  ("engines", JObj [("npm", JStr ">=9")])]) =
  [mkViolation [Key "engines"; Key "node"] TString None].
Proof. reflexivity. Qed.

(** [engines_requires_node] at a record with [node] and [npm] ranges,
    and at one with [npm] only. *)
Lemma engines_requires_node_witness :
  conforms (JObj [("node", JStr ">=18"); ("npm", JStr ">=9")])
           Package.Json_engines = true
  /\ conforms (JObj [("npm", JStr ">=9")]) Package.Json_engines = false.
Proof.
  destruct engines_requires_node as (Hiff & Hmiss & _). split.
  - apply Hiff. split; [reflexivity|].
    intros k v [E|[E|[]]]; injection E as _ <-; reflexivity.
  - apply Hmiss. reflexivity.
Defined.

(** ** [peerDependenciesMeta] *)

Lemma conforms_meta_value (v : json) :
  conforms v (TString :|: TBoolean :|: TUndefined)%ty =
  is_string v || is_boolean v.
Proof. rewrite conforms_eq. cbn. now rewrite !orb_false_r. Qed.

Lemma conforms_peerDependenciesMeta_entry (fs : list (string * json)) :
  conforms (JObj fs) Package.Json_peerDependenciesMeta_entry =
  has_key "optional" fs
  && forallb (fun m => if String.eqb (fst m) "optional"
                       then is_boolean (snd m)
                       else is_string (snd m) || is_boolean (snd m)) fs.
Proof.
  rewrite conforms_record
    with (props := [req "optional" TBoolean])
         (index := Some (TString :|: TBoolean :|: TUndefined)%ty)
    by reflexivity.
  rewrite required_present_members.
  cbn [required_members filter prop_optional prop_key req fst snd negb
       forallb].
  rewrite andb_true_r. f_equal. apply forallb_ext_in. intros m _.
  unfold member_type. cbn [prop_type prop_key prop_ty req fst snd].
  destruct (String.eqb (fst m) "optional");
    [apply conforms_TBoolean | apply conforms_meta_value].
Qed.

Lemma conforms_peerDependenciesMeta (ms : list (string * json)) :
  conforms (JObj ms) Package.Json_peerDependenciesMeta =
  forallb (fun m => conforms (snd m) Package.Json_peerDependenciesMeta_entry)
          ms.
Proof.
  rewrite conforms_record
    with (props := []) (index := Some Package.Json_peerDependenciesMeta_entry)
    by reflexivity.
  reflexivity.
Qed.

Lemma peerDependenciesMeta_entry_record (v : json) :
  conforms v Package.Json_peerDependenciesMeta_entry = true ->
  exists fs, v = JObj fs.
Proof.
  rewrite conforms_single
    with (a := Package.Json_peerDependenciesMeta_entry) by reflexivity.
  destruct v; try discriminate. eauto.
Qed.

(** C5, as amended.  Every entry of [peerDependenciesMeta] must be a
    record in which [optional] is present and boolean; a sub-record
    without [optional] is a violation.  The other entries of the
    sub-record are not unconstrained: each must be a string or a
    boolean.  A sub-record with [optional: true] and an extra string or
    boolean entry, such as [foo: "bar"], is accepted. *)
Theorem peerDependenciesMeta_entry_shape :
  (forall ms,
      conforms (JObj ms) Package.Json_peerDependenciesMeta = true <->
      (forall k v, In (k, v) ms ->
                   exists fs,
                     v = JObj fs
                     /\ conforms (JObj fs)
                                 Package.Json_peerDependenciesMeta_entry
                        = true))
  /\ (forall fs,
         conforms (JObj fs) Package.Json_peerDependenciesMeta_entry = true
         <->
         has_key "optional" fs = true
         /\ (forall k v, In (k, v) fs ->
                         if String.eqb k "optional"
                         then is_boolean v = true
                         else is_string v = true \/ is_boolean v = true))
  /\ (forall fs,
         has_key "optional" fs = false ->
         conforms (JObj fs) Package.Json_peerDependenciesMeta_entry = false)
  /\ (forall (k s : string) (b : bool),
         k <> "optional" ->
         conforms (JObj [("optional", JBool b); (k, JStr s)])
                  Package.Json_peerDependenciesMeta_entry = true)
  /\ conforms (JObj [("optional", JBool true); ("foo", JStr "bar")])
              Package.Json_peerDependenciesMeta_entry = true.
Proof.
  split.
  { intros ms. rewrite conforms_peerDependenciesMeta, forallb_members.
    cbn [snd]. split.
    - intros H k v Hin. specialize (H k v Hin).
      destruct (peerDependenciesMeta_entry_record _ H) as [fs ->]. eauto.
    - intros H k v Hin. destruct (H k v Hin) as (fs & -> & Hc). exact Hc. }
  split.
  { intros fs. rewrite conforms_peerDependenciesMeta_entry, andb_true_iff.
    apply and_iff_compat_l. rewrite forallb_members. cbn [fst snd].
    split; intros H k v Hin; specialize (H k v Hin);
      destruct (String.eqb k "optional"); auto.
    - now apply orb_true_iff.
    - now apply orb_true_iff. }
  split.
  { intros fs H. now rewrite conforms_peerDependenciesMeta_entry, H. }
  split; [|reflexivity].
  intros k s b Hk. rewrite conforms_peerDependenciesMeta_entry.
  apply String.eqb_neq in Hk. cbn [forallb fst snd is_boolean is_string].
  rewrite Hk. reflexivity.
Qed.

(** [peerDependenciesMeta_entry_shape] at [{react: {optional: true,
    note: "peer"}}] and at a sub-record without [optional]. *)
Lemma peerDependenciesMeta_entry_shape_witness :
  conforms (JObj [("react", JObj [("optional", JBool true);
                                  ("note", JStr "peer")])])
           Package.Json_peerDependenciesMeta = true
  /\ conforms (JObj [("foo", JStr "bar")])
              Package.Json_peerDependenciesMeta_entry = false.
Proof.
  destruct peerDependenciesMeta_entry_shape
    as (Hmeta & _ & Hmiss & Hextra & _).
  split.
  - apply Hmeta. intros k v [E|[]]. injection E as _ <-.
    eexists. split; [reflexivity|]. apply Hextra. discriminate.
  - apply Hmiss. reflexivity.
Defined.

(** C5, as stated, fails: an extra entry of the sub-record may not hold
    any value.  With [optional: true] present, the extra entry
    [foo: 42] makes the sub-record a violation. *)
Lemma peerDependenciesMeta_extra_counterexample :
  ~ (forall (k : string) (x : json),
        k <> "optional" ->
        conforms (JObj [("optional", JBool true); (k, x)])
                 Package.Json_peerDependenciesMeta_entry = true).
Proof.
  intros H. specialize (H "foo" (JNum "42")).
  assert (Hne : "foo" <> "optional") by discriminate.
  specialize (H Hne). vm_compute in H. discriminate.
Qed.

Example peerDependenciesMeta_extra_number_reported :
  validate (JObj [("name", JStr "x"); ("version", JStr "1.0.0");
                  ("peerDependenciesMeta",
                   JObj [("react", JObj [("optional", JBool true);
                                         ("foo", JNum "42")])])]) =
  [ mkViolation [Key "peerDependenciesMeta"; Key "react"; Key "foo"]
                (TString :|: TBoolean :|: TUndefined)%ty
                (Some (JNum "42")) ].
Proof. reflexivity. Qed.

(** ** Records whose every value is a string *)

Lemma all_members_string (props : list (string * bool * ty))
      (index : ty) (ms : list (string * json)) :
  Forall (fun p => prop_ty p = TString) props ->
  (forall v, conforms v index = is_string v) ->
  forallb (fun m => match member_type props (Some index) (fst m) with
                    | Some e => conforms (snd m) e
                    | None => true
                    end) ms =
  forallb (fun m => is_string (snd m)) ms.
Proof.
  intros Hprops Hindex. apply forallb_ext_in. intros m _.
  unfold member_type.
  destruct (prop_type (fst m) props) as [e|] eqn:He.
  - apply prop_type_In in He. destruct He as (p & Hin & _ & <-).
    rewrite Forall_forall in Hprops. rewrite (Hprops p Hin).
    apply conforms_TString.
  - apply Hindex.
Qed.

Lemma conforms_scripts (ms : list (string * json)) :
  conforms (JObj ms) Package.Json_scripts =
  forallb (fun m => is_string (snd m)) ms.
Proof.
  unfold Package.Json_scripts.
  erewrite conforms_record by reflexivity.
  rewrite required_present_members. cbn [required_members filter
    prop_optional opt fst snd negb forallb andb].
  apply all_members_string.
  - repeat constructor.
  - apply conforms_string_or_undefined.
Qed.

Lemma conforms_publishConfig (ms : list (string * json)) :
  conforms (JObj ms) Package.Json_publishConfig =
  forallb (fun m => is_string (snd m)) ms.
Proof.
  unfold Package.Json_publishConfig.
  erewrite conforms_record by reflexivity.
  rewrite required_present_members. cbn [required_members filter
    prop_optional opt fst snd negb forallb andb].
  apply all_members_string.
  - repeat constructor.
  - apply conforms_string_or_undefined.
Qed.

Lemma conforms_esnext_record (ms : list (string * json)) :
  conforms (JObj ms) Package.Json_esnext =
  forallb (fun m => is_string (snd m)) ms.
Proof.
  rewrite conforms_eq.
  change (resolve Package.Json_esnext)
    with (Some [TString;
                TRecord [opt "main" TString; opt "browser" TString]
                        (Some (TString :|: TUndefined)%ty)]).
  cbn [existsb accepts is_string orb]. rewrite orb_false_r.
  rewrite required_present_members. cbn [required_members filter
    prop_optional opt fst snd negb forallb andb].
  apply all_members_string.
  - repeat constructor.
  - apply conforms_string_or_undefined.
Qed.

(** C9.  In [scripts], [engines], [publishConfig] and the record form of
    [esnext] the index signature types the values of all keys, named in
    the declaration or not: when such a record conforms, every value in
    it is a string, so a member that holds a number, a record, a
    sequence (or any other non-string) makes the record a violation. *)
Theorem open_record_values_are_strings
        (t : ty) (ms : list (string * json)) (k : string) (v : json) :
  In t [Package.Json_scripts; Package.Json_engines;
        Package.Json_publishConfig; Package.Json_esnext] ->
  In (k, v) ms ->
  (conforms (JObj ms) t = true -> exists s, v = JStr s)
  /\ (is_string v = false -> conforms (JObj ms) t = false).
Proof.
  intros Ht Hin.
  assert (Hall : conforms (JObj ms) t = true ->
                 forallb (fun m => is_string (snd m)) ms = true).
  { destruct Ht as [<-|[<-|[<-|[<-|[]]]]].
    - now rewrite conforms_scripts.
    - rewrite conforms_engines, andb_true_iff. tauto.
    - now rewrite conforms_publishConfig.
    - now rewrite conforms_esnext_record. }
  assert (Hstr : conforms (JObj ms) t = true -> is_string v = true).
  { intros Hc. apply Hall in Hc. rewrite forallb_members in Hc.
    apply (Hc k v Hin). }
  split.
  - intros Hc. apply is_string_inv. auto.
  - intros Hv. destruct (conforms (JObj ms) t); [|reflexivity].
    rewrite Hstr in Hv; [discriminate | reflexivity].
Qed.

(** [open_record_values_are_strings] at a [scripts] record whose
    unrecognized key [deploy] holds a number. *)
Lemma open_record_values_are_strings_witness :
  conforms (JObj [("test", JStr "jest"); ("deploy", JNum "3")])
           Package.Json_scripts = false.
Proof.
  apply (@open_record_values_are_strings Package.Json_scripts
           [("test", JStr "jest"); ("deploy", JNum "3")]
           "deploy" (JNum "3")).
  - simpl. tauto.
  - simpl. tauto.
  - reflexivity.
Defined.

Example open_record_non_string_reported :
  validate (JObj [("name", JStr "x"); ("version", JStr "1.0.0");
                  ("publishConfig", JObj [("access", JStr "public");
                                          ("retries", JNum "3")]);
                  ("esnext", JObj [("worker", JArr [])])]) =
  [ mkViolation [Key "publishConfig"; Key "retries"]
                (TString :|: TUndefined)%ty (Some (JNum "3"));
    mkViolation [Key "esnext"] Package.Json_esnext
                (Some (JObj [("worker", JArr [])])) ].
Proof. reflexivity. Qed.

(* ================================================================== *)
(** * [type] and [man] *)
(* ================================================================== *)

Lemma conforms_man_array (names : list string) :
  conforms (JArr (map JStr names)) (TString :|: TArray TString)%ty = true.
Proof.
  rewrite conforms_eq.
  change (resolve (TString :|: TArray TString)%ty)
    with (Some [TString; TArray TString]).
  cbn [existsb accepts is_string orb]. rewrite orb_false_r.
  induction names as [|n names IH]; [reflexivity|].
  cbn [map forallb]. now rewrite conforms_TString, IH.
Qed.

Lemma valid_manifest_head (k : string) (v : json) (e : ty)
      (doc : list (string * json)) :
  prop_type k Package.Json_members = Some e ->
  conforms v e = false ->
  valid_manifest (JObj ((k, v) :: doc)) = false.
Proof.
  intros He Hv. rewrite valid_manifest_eq. cbn [forallb fst snd].
  rewrite He, Hv. cbn [andb]. apply andb_false_r.
Qed.

(** C8.  [Json] declares [type?: string] and
    [man?: string | string[]]: both are optional, a document that
    carries [type] as a string, or [man] as a string or as a sequence of
    strings, stays valid, and a value of another shape under either key
    makes the document invalid. *)
Theorem type_and_man_members :
  In (opt "type" TString) Package.Json_members
  /\ In (opt "man" (TString :|: TArray TString)%ty) Package.Json_members
  /\ prop_type "type" Package.Json_members = Some TString
  /\ prop_type "man" Package.Json_members
     = Some (TString :|: TArray TString)%ty
  /\ (forall doc (s : string),
         valid_manifest (JObj doc) = true ->
         valid_manifest (JObj (("type", JStr s) :: doc)) = true
         /\ valid_manifest (JObj (("man", JStr s) :: doc)) = true)
  /\ (forall doc (names : list string),
         valid_manifest (JObj doc) = true ->
         valid_manifest (JObj (("man", JArr (map JStr names)) :: doc))
         = true)
  /\ (forall doc v,
         is_string v = false ->
         valid_manifest (JObj (("type", v) :: doc)) = false)
  /\ (forall doc (n : string),
         valid_manifest (JObj (("man", JNum n) :: doc)) = false).
Proof.
  split; [unfold Package.Json_members; simpl; tauto|].
  split; [unfold Package.Json_members; simpl; tauto|].
  split; [reflexivity|]. split; [reflexivity|].
  split.
  { intros doc s Hd. split.
    - now apply valid_manifest_cons with (e := TString).
    - now apply valid_manifest_cons
        with (e := (TString :|: TArray TString)%ty). }
  split.
  { intros doc names Hd.
    apply valid_manifest_cons
      with (e := (TString :|: TArray TString)%ty);
      [reflexivity | apply conforms_man_array | exact Hd]. }
  split.
  { intros doc v Hv. apply valid_manifest_head with (e := TString);
      [reflexivity | now rewrite conforms_TString]. }
  intros doc n.
  apply valid_manifest_head with (e := (TString :|: TArray TString)%ty);
    reflexivity.
Qed.

(** [type_and_man_members] at the minimal manifest extended with
    [type: "module"] and a [man] sequence. *)
Lemma type_and_man_members_witness :
  valid_manifest
    (JObj [("type", JStr "module"); ("name", JStr "x");
           ("version", JStr "1.0.0")]) = true
  /\ valid_manifest
       (JObj [("man", JArr (map JStr ["./man/x.1"; "./man/x.2"]));
              ("name", JStr "x"); ("version", JStr "1.0.0")]) = true.
Proof.
  destruct type_and_man_members as (_ & _ & _ & _ & Hstr & Hseq & _).
  split.
  - apply Hstr. reflexivity.
  - apply Hseq. reflexivity.
Defined.

(* ================================================================== *)
(** * [bugs] *)
(* ================================================================== *)

Lemma conforms_bugs_record (ms : list (string * json)) :
  conforms (JObj ms) Package.Json_bugs =
  has_key "url" ms && has_key "email" ms
  && forallb (fun m => if String.eqb (fst m) "url" then is_string (snd m)
                       else if String.eqb (fst m) "email"
                            then is_string (snd m)
                            else true) ms.
Proof.
  rewrite conforms_eq.
  change (resolve Package.Json_bugs)
    with (Some [TString;
                TRecord [req "url" TString; req "email" TString] None]).
  cbn [existsb]. rewrite accepts_record by reflexivity.
  cbn [accepts is_string orb]. rewrite orb_false_r.
  rewrite required_present_members.
  cbn [required_members filter prop_optional prop_key req fst snd negb
       forallb].
  rewrite andb_true_r. f_equal. apply forallb_ext_in. intros m _.
  unfold member_type. cbn [prop_type prop_key prop_ty req fst snd].
  destruct (String.eqb (fst m) "url"); [apply conforms_TString|].
  destruct (String.eqb (fst m) "email"); [apply conforms_TString|].
  reflexivity.
Qed.

(** C10.  [bugs] is a string or a record in which both [url] and
    [email] are required: the bare string conforms, the record with both
    members as strings conforms, and a record that lacks [url] or lacks
    [email] does not. *)
Theorem bugs_record_requires_url_and_email :
  (forall s, conforms (JStr s) Package.Json_bugs = true)
  /\ (forall u e : string,
         conforms (JObj [("url", JStr u); ("email", JStr e)])
                  Package.Json_bugs = true)
  /\ (forall ms,
         has_key "url" ms = false \/ has_key "email" ms = false ->
         conforms (JObj ms) Package.Json_bugs = false)
  /\ (forall ms,
         conforms (JObj ms) Package.Json_bugs = true <->
         (exists u, In ("url", JStr u) ms)
         /\ (exists e, In ("email", JStr e) ms)
         /\ (forall k v, In (k, v) ms -> k = "url" \/ k = "email" ->
                         is_string v = true)).
Proof.
  split; [intros s; reflexivity|].
  split; [intros u e; reflexivity|].
  split.
  { intros ms H. rewrite conforms_bugs_record.
    destruct H as [-> | ->]; [reflexivity|].
    now rewrite andb_false_r. }
  intros ms. rewrite conforms_bugs_record, !andb_true_iff, forallb_members.
  cbn [fst snd]. split.
  - intros [[Hu He] Hall].
    assert (Hs : forall k v, In (k, v) ms -> k = "url" \/ k = "email" ->
                             is_string v = true).
    { intros k v Hin Hk. specialize (Hall k v Hin).
      destruct Hk as [-> | ->]; exact Hall. }
    apply has_key_In in Hu. destruct Hu as [vu Hu].
    apply has_key_In in He. destruct He as [ve He].
    pose proof (Hs _ _ Hu (or_introl eq_refl)) as Su.
    pose proof (Hs _ _ He (or_intror eq_refl)) as Se.
    apply is_string_inv in Su. destruct Su as [u ->].
    apply is_string_inv in Se. destruct Se as [e ->].
    eauto.
  - intros ([u Hu] & [e He] & Hs). repeat split.
    + apply has_key_In. eauto.
    + apply has_key_In. eauto.
    + intros k v Hin.
      destruct (String.eqb_spec k "url") as [->|_]; [eauto|].
      destruct (String.eqb_spec k "email") as [->|_]; eauto.
Qed.

(** [bugs_record_requires_url_and_email] at a record with a [url] and no
    [email]. *)
Lemma bugs_record_requires_url_and_email_witness :
  conforms (JObj [("url", JStr "https://example.org/issues")])
           Package.Json_bugs = false.
Proof.
  destruct bugs_record_requires_url_and_email as (_ & _ & Hmiss & _).
  apply Hmiss. right. reflexivity.
Defined.

(* ================================================================== *)
(** * Resolution never runs out of fuel on the declarations *)
(* ================================================================== *)

Lemma alternatives_more_fuel (fuel : nat) :
  forall (t : ty) (alts : list ty),
    alternatives fuel t = Some alts ->
    alternatives (S fuel) t = Some alts.
Proof.
  induction fuel as [|fuel IH]; [discriminate|].
  induction t; intros alts H; try exact H.
  - (* union *)
    change (match alternatives (S fuel) t1, alternatives (S fuel) t2 with
            | Some xs, Some ys => Some (xs ++ ys)
            | _, _ => None
            end = Some alts) in H.
    change (match alternatives (S (S fuel)) t1,
                  alternatives (S (S fuel)) t2 with
            | Some xs, Some ys => Some (xs ++ ys)
            | _, _ => None
            end = Some alts).
    destruct (alternatives (S fuel) t1) as [xs|]; [|discriminate].
    destruct (alternatives (S fuel) t2) as [ys|]; [|discriminate].
    now rewrite (IHt1 _ eq_refl), (IHt2 _ eq_refl).
  - (* reference *)
    change (match lookup_decl n Package.declarations with
            | Some d => alternatives fuel d
            | None => None
            end = Some alts) in H.
    change (match lookup_decl n Package.declarations with
            | Some d => alternatives (S fuel) d
            | None => None
            end = Some alts).
    destruct (lookup_decl n Package.declarations); [|discriminate].
    now apply IH.
Qed.

(** More fuel than [resolve] grants changes nothing it has computed. *)
Lemma resolve_stable (extra : nat) (t : ty) (alts : list ty) :
  resolve t = Some alts ->
  alternatives (extra + S (List.length Package.declarations)) t = Some alts.
Proof.
  intros H. induction extra as [|extra IH]; [exact H|].
  now apply alternatives_more_fuel.
Qed.

(** Every type expression written in the file resolves. *)
Lemma written_types_resolve : forallb resolves written_types = true.
Proof. vm_compute. reflexivity. Qed.

(* ================================================================== *)
(** * Members are judged one by one *)
(* ================================================================== *)

Lemma forallb_Permutation (A : Type) (f : A -> bool) (l l' : list A) :
  Permutation l l' -> forallb f l = forallb f l'.
Proof.
  induction 1 as [ | x l l' _ IH | x y l | l l' l'' _ IH1 _ IH2 ];
    cbn [forallb].
  - reflexivity.
  - now rewrite IH.
  - destruct (f x), (f y); reflexivity.
  - now rewrite IH1.
Qed.

Lemma existsb_Permutation (A : Type) (f : A -> bool) (l l' : list A) :
  Permutation l l' -> existsb f l = existsb f l'.
Proof.
  induction 1 as [ | x l l' _ IH | x y l | l l' l'' _ IH1 _ IH2 ];
    cbn [existsb].
  - reflexivity.
  - now rewrite IH.
  - destruct (f x), (f y); reflexivity.
  - now rewrite IH1.
Qed.

Lemma valid_manifest_member_eq (k : string) (v : json)
      (doc : list (string * json)) :
  k <> "name" -> k <> "version" ->
  valid_manifest (JObj ((k, v) :: doc)) =
  member_accepts k v && valid_manifest (JObj doc).
Proof.
  intros Hn Hv. rewrite !valid_manifest_eq, !has_key_cons.
  apply String.eqb_neq in Hn, Hv.
  rewrite String.eqb_sym in Hn. rewrite String.eqb_sym in Hv.
  rewrite Hn, Hv. cbn [orb forallb fst snd]. unfold member_accepts.
  destruct (prop_type k Package.Json_members) as [e|];
    [destruct (conforms v e)|];
    destruct (has_key "name" doc), (has_key "version" doc); reflexivity.
Qed.

(** X1.  The members of a manifest are judged independently and
    wherever they stand: a document with a member other than [name] and
    [version] somewhere in it is valid exactly when the value is
    acceptable under its key and the document without that member is
    valid. *)
Theorem manifest_member_independent
        (k : string) (v : json) (before after : list (string * json)) :
  k <> "name" -> k <> "version" ->
  valid_manifest (JObj (before ++ (k, v) :: after)) =
  member_accepts k v && valid_manifest (JObj (before ++ after)).
Proof.
  intros Hn Hv. rewrite <- valid_manifest_member_eq by assumption.
  rewrite !valid_manifest_eq. unfold has_key, keys.
  assert (Hp : Permutation (before ++ (k, v) :: after)
                           ((k, v) :: before ++ after)).
  { apply Permutation_sym, Permutation_middle. }
  rewrite (forallb_Permutation _ Hp).
  rewrite !(existsb_Permutation _ (Permutation_map fst Hp)).
  reflexivity.
Qed.

Lemma manifest_member_independent_witness :
  valid_manifest (JObj ([("name", JStr "x")]
                        ++ ("license", JNum "7")
                        :: [("version", JStr "1.0.0")])) =
  member_accepts "license" (JNum "7")
  && valid_manifest (JObj ([("name", JStr "x")]
                           ++ [("version", JStr "1.0.0")])).
Proof.
  apply (@manifest_member_independent "license" (JNum "7")
           [("name", JStr "x")] [("version", JStr "1.0.0")]);
    discriminate.
Defined.

(** X2.  [Json] has no index signature, so a key it does not declare is
    not looked at: whatever value it holds, the document is as valid as
    without it. *)
Theorem undeclared_member_ignored
        (k : string) (v : json) (doc : list (string * json)) :
  prop_type k Package.Json_members = None ->
  valid_manifest (JObj ((k, v) :: doc)) = valid_manifest (JObj doc).
Proof.
  intros Hk.
  assert (Hn : k <> "name") by (intros ->; discriminate).
  assert (Hv : k <> "version") by (intros ->; discriminate).
  rewrite valid_manifest_member_eq by assumption.
  unfold member_accepts. now rewrite Hk.
Qed.

Lemma undeclared_member_ignored_witness :
  valid_manifest (JObj [("browserslist", JArr [JNum "1"; JNull]);
                        ("name", JStr "x"); ("version", JStr "1.0.0")]) =
  valid_manifest (JObj [("name", JStr "x"); ("version", JStr "1.0.0")]).
Proof.
  apply (@undeclared_member_ignored "browserslist"
           (JArr [JNum "1"; JNull])
           [("name", JStr "x"); ("version", JStr "1.0.0")]).
  reflexivity.
Defined.

(* ================================================================== *)
(** * Records of optional and required strings *)
(* ================================================================== *)

Lemma declares_In (props : list (string * bool * ty)) (k : string) :
  declares props k = true <-> In k (map prop_key props).
Proof.
  unfold declares. rewrite existsb_exists. split.
  - intros (k' & Hin & E). apply String.eqb_eq in E. now subst.
  - intros Hin. exists k. split; [exact Hin | apply String.eqb_refl].
Qed.

Lemma prop_type_undeclared (props : list (string * bool * ty))
      (k : string) :
  prop_type k props = None <-> ~ In k (map prop_key props).
Proof.
  induction props as [|p props IH]; cbn [prop_type map In].
  - tauto.
  - destruct (String.eqb_spec k (prop_key p)) as [->|Hne].
    + split; [discriminate | tauto].
    + rewrite IH. intuition congruence.
Qed.

Lemma shares_member_iff (props : list (string * bool * ty))
      (ms : list (string * json)) :
  shares_member props (keys ms) = true <->
  ms = [] \/ (exists k x, In (k, x) ms /\ In k (map prop_key props)).
Proof.
  destruct ms as [|m ms]; [cbn; tauto|].
  unfold shares_member, keys. cbn [map].
  change (fst m :: map fst ms) with (map fst (m :: ms)).
  rewrite existsb_map, existsb_exists. split.
  - intros ([k x] & Hin & Hd). right. exists k, x.
    split; [exact Hin | now apply declares_In].
  - intros [H|(k & x & Hin & Hd)]; [discriminate|].
    exists (k, x). split; [exact Hin | now apply declares_In].
Qed.

(** A record type without index signature whose members are all typed
    [string]: an object conforms when it passes the weak-type check, has
    the required members and each member the type declares holds a
    string. *)
Lemma conforms_string_record (props : list (string * bool * ty))
      (t : ty) (ms : list (string * json)) :
  resolve t = Some [TRecord props None] ->
  Forall (fun p => prop_ty p = TString) props ->
  conforms (JObj ms) t = true <->
  weak_type_ok props None (keys ms) = true
  /\ required_present props (keys ms) = true
  /\ (forall k x, In (k, x) ms -> In k (map prop_key props) ->
                  is_string x = true).
Proof.
  intros R Hprops. rewrite (conforms_single _ _ R). cbn [accepts].
  rewrite !andb_true_iff.
  apply and_iff_compat_l, and_iff_compat_l.
  rewrite forallb_members. cbn [fst snd].
  unfold member_type. rewrite Forall_forall in Hprops.
  split.
  - intros H k x Hin Hk. specialize (H k x Hin).
    destruct (prop_type k props) as [e|] eqn:He.
    + apply prop_type_In in He. destruct He as (p & Hp & _ & <-).
      rewrite (Hprops p Hp), conforms_TString in H. exact H.
    + apply prop_type_undeclared in He. contradiction.
  - intros H k x Hin.
    destruct (prop_type k props) as [e|] eqn:He; [|reflexivity].
    pose proof He as He'. apply prop_type_In in He'.
    destruct He' as (p & Hp & Hk & <-).
    rewrite (Hprops p Hp), conforms_TString. apply (H k x Hin).
    rewrite <- Hk. now apply in_map.
Qed.

Lemma conforms_strong_string_record (props : list (string * bool * ty))
      (t : ty) (ms : list (string * json)) :
  resolve t = Some [TRecord props None] ->
  weak props None = false ->
  Forall (fun p => prop_ty p = TString) props ->
  conforms (JObj ms) t = true <->
  required_present props (keys ms) = true
  /\ (forall k x, In (k, x) ms -> In k (map prop_key props) ->
                  is_string x = true).
Proof.
  intros R Hw Hprops. rewrite (conforms_string_record _ ms R Hprops).
  rewrite weak_type_ok_strong by exact Hw. tauto.
Qed.

Lemma conforms_single_record_inv (v : json) (t : ty)
      (props : list (string * bool * ty)) (index : option ty) :
  resolve t = Some [TRecord props index] ->
  conforms v t = true -> exists ms, v = JObj ms.
Proof.
  intros R. rewrite (conforms_single _ _ R).
  destruct v; try discriminate. eauto.
Qed.

Lemma conforms_union2 (v : json) (t a b : ty) :
  resolve t = Some [a; b] -> conforms v t = accepts v a || accepts v b.
Proof.
  intros R. rewrite conforms_eq, R. cbn [existsb]. now rewrite orb_false_r.
Qed.

(** ** [Person] *)

Lemma resolve_Person :
  resolve (TRef "Person") = Some [TString; Person_record].
Proof. reflexivity. Qed.

Lemma conforms_Person_record (ms : list (string * json)) :
  conforms (JObj ms) (TRef "Person") = conforms (JObj ms) Person_record.
Proof.
  rewrite conforms_union2 with (a := TString) (b := Person_record)
    by reflexivity.
  now rewrite conforms_single with (a := Person_record) by reflexivity.
Qed.

(** X4.  A [Person] is a string, or a record that has a [name] and whose
    [name], [url] and [email] members, where present, are strings;
    nothing else (no number, boolean, [null] or sequence) is a person. *)
Theorem Person_shape (v : json) :
  conforms v (TRef "Person") = true <->
  (exists s, v = JStr s)
  \/ (exists ms,
         v = JObj ms
         /\ has_key "name" ms = true
         /\ (forall k x, In (k, x) ms -> In k ["name"; "url"; "email"] ->
                         is_string x = true)).
Proof.
  destruct v as [ | b | n | s | vs | ms ].
  1-3, 5: split; [discriminate | intros [[s H]|(ms & H & _)]; discriminate].
  - split; [eauto | reflexivity].
  - rewrite conforms_Person_record.
    rewrite (@conforms_strong_string_record
               [req "name" TString; opt "url" TString; opt "email" TString]
               Person_record ms eq_refl eq_refl)
      by (repeat constructor).
    rewrite required_present_members.
    cbn [required_members filter prop_optional prop_key req opt fst snd
         negb forallb map]. rewrite andb_true_r.
    change (existsb (String.eqb "name") (keys ms)) with (has_key "name" ms).
    split.
    + intros [H1 H2]. right. exists ms. auto.
    + intros [[s H]|(ms' & [= <-] & H1 & H2)]; [discriminate | auto].
Qed.

Lemma conforms_Person_array (vs : list json) (t : ty) :
  resolve t = Some [TArray (TRef "Person")] ->
  conforms (JArr vs) t = true <->
  (forall x, In x vs -> conforms x (TRef "Person") = true).
Proof.
  intros R. rewrite (conforms_array _ _ R). apply forallb_forall.
Qed.

(** X5.  [author] takes exactly the persons (writing [string | Person]
    adds nothing to [Person]), and [contributors] and [maintainers] take
    exactly the sequences of persons; a single person is not accepted
    where a sequence is declared. *)
Theorem people_members :
  (forall v, member_accepts "author" v = conforms v (TRef "Person"))
  /\ (forall k v,
         In k ["contributors"; "maintainers"] ->
         (member_accepts k v = true <->
          exists vs, v = JArr vs
                     /\ (forall x, In x vs ->
                                   conforms x (TRef "Person") = true))).
Proof.
  split.
  - intros v. unfold member_accepts.
    change (prop_type "author" Package.Json_members)
      with (Some (TString :|: TRef "Person")%ty).
    cbv iota. rewrite !conforms_eq.
    change (resolve (TString :|: TRef "Person")%ty)
      with (Some [TString; TString; Person_record]).
    rewrite resolve_Person. cbn [existsb].
    now destruct (accepts v TString).
  - intros k v Hk.
    assert (Hm : member_accepts k v = conforms v (TArray (TRef "Person"))).
    { destruct Hk as [<-|[<-|[]]]; reflexivity. }
    rewrite Hm. destruct v as [ | b | n | s | vs | ms ].
    1-4, 6: split; [discriminate | intros (vs & H & _); discriminate].
    rewrite conforms_Person_array by reflexivity. split.
    + intros H. exists vs. auto.
    + intros (vs' & [= <-] & H). exact H.
Qed.

Lemma people_members_witness :
  member_accepts "contributors"
                 (JArr [JStr "Ada <ada@example.org>";
                        JObj [("name", JStr "Grace")]]) = true
  /\ member_accepts "maintainers" (JStr "Ada") = false.
Proof.
  destruct people_members as [_ H]. split.
  - apply H; [simpl; tauto|]. eexists. split; [reflexivity|].
    intros x [<-|[<-|[]]]; reflexivity.
  - destruct (member_accepts "maintainers" (JStr "Ada")) eqn:E;
      [|reflexivity].
    apply H in E; [|simpl; tauto]. destruct E as (vs & E & _).
    discriminate.
Defined.

(** ** [fundingWay] and [funding] *)

Lemma resolve_fundingWay :
  resolve (TRef "fundingWay") = Some [Package.fundingWay].
Proof. reflexivity. Qed.

(** X6.  A [fundingWay] is a record that has a [url] and whose [url] and
    [type] members, where present, are strings. *)
Theorem fundingWay_shape (v : json) :
  conforms v (TRef "fundingWay") = true <->
  exists ms,
    v = JObj ms
    /\ has_key "url" ms = true
    /\ (forall k x, In (k, x) ms -> In k ["url"; "type"] ->
                    is_string x = true).
Proof.
  split.
  - intros H.
    destruct (conforms_single_record_inv _ _ resolve_fundingWay H)
      as [ms ->].
    exists ms. split; [reflexivity|].
    apply (conforms_strong_string_record _ ms resolve_fundingWay eq_refl)
      in H;
      [|repeat constructor].
    rewrite required_present_members in H.
    cbn [required_members filter prop_optional prop_key req opt fst snd
         negb forallb map] in H. rewrite andb_true_r in H. exact H.
  - intros (ms & -> & Hurl & Hstr).
    apply (conforms_strong_string_record _ ms resolve_fundingWay eq_refl);
      [repeat constructor|].
    rewrite required_present_members.
    cbn [required_members filter prop_optional prop_key req opt fst snd
         negb forallb map]. rewrite andb_true_r. auto.
Qed.

Lemma resolve_funding :
  resolve Package.Json_funding =
  Some [TString; TArray TString; Package.fundingWay;
        TArray (TRef "fundingWay")].
Proof. reflexivity. Qed.

Lemma conforms_funding_record (ms : list (string * json)) :
  conforms (JObj ms) Package.Json_funding =
  conforms (JObj ms) (TRef "fundingWay").
Proof.
  rewrite !conforms_eq, resolve_funding, resolve_fundingWay.
  cbn [existsb accepts is_string Package.fundingWay orb].
  now rewrite !orb_false_r.
Qed.

Lemma conforms_funding_array (vs : list json) :
  conforms (JArr vs) Package.Json_funding =
  forallb is_string vs
  || forallb (fun x => conforms x (TRef "fundingWay")) vs.
Proof.
  rewrite conforms_eq, resolve_funding.
  cbn [existsb accepts is_string Package.fundingWay orb].
  rewrite !orb_false_r. f_equal. apply forallb_ext_in.
  intros x _. apply conforms_TString.
Qed.

(** X7.  [funding] takes a string, a [fundingWay], a sequence of strings
    or a sequence of [fundingWay]s.  The two sequence forms do not mix:
    a sequence that holds both a string and a record is rejected. *)
Theorem funding_shape :
  (forall v,
      conforms v Package.Json_funding = true <->
      (exists s, v = JStr s)
      \/ (exists ms, v = JObj ms
                     /\ conforms (JObj ms) (TRef "fundingWay") = true)
      \/ (exists vs, v = JArr vs
                     /\ ((forall x, In x vs -> is_string x = true)
                         \/ (forall x, In x vs ->
                                       conforms x (TRef "fundingWay")
                                       = true))))
  /\ (forall vs (s : string) ms,
         In (JStr s) vs -> In (JObj ms) vs ->
         conforms (JArr vs) Package.Json_funding = false).
Proof.
  split.
  - intros v. destruct v as [ | b | n | s | vs | ms ].
    1-3: split; [discriminate
                | intros [[s H]|[(ms & H & _)|(vs & H & _)]];
                  discriminate].
    + split; [eauto | reflexivity].
    + rewrite conforms_funding_array, orb_true_iff, !forallb_forall.
      split.
      * intros H. right. right. exists vs. auto.
      * intros [[s H]|[(ms & H & _)|(vs' & [= <-] & H)]];
          [discriminate | discriminate | exact H].
    + rewrite conforms_funding_record. split.
      * intros H. right. left. exists ms. auto.
      * intros [[s H]|[(ms' & [= <-] & H)|(vs & H & _)]];
          [discriminate | exact H | discriminate].
  - intros vs s ms Hs Hm. rewrite conforms_funding_array.
    apply orb_false_iff. split.
    + destruct (forallb is_string vs) eqn:E; [|reflexivity].
      rewrite forallb_forall in E. now specialize (E _ Hm).
    + destruct (forallb (fun x => conforms x (TRef "fundingWay")) vs)
        eqn:E; [|reflexivity].
      rewrite forallb_forall in E. now specialize (E _ Hs).
Qed.

Lemma funding_shape_witness :
  conforms (JArr [JStr "https://example.org/donate";
                  JObj [("url", JStr "https://example.org/sponsor")]])
           Package.Json_funding = false.
Proof.
  destruct funding_shape as [_ H].
  apply (H _ "https://example.org/donate"
           [("url", JStr "https://example.org/sponsor")]);
    simpl; tauto.
Defined.

(** ** [repository], [directories], [dist] *)

Lemma weak_required_present (props : list (string * bool * ty))
      (ks : list string) :
  weak props None = true -> required_present props ks = true.
Proof.
  intros Hw. unfold required_present. apply forallb_forall.
  intros p Hp. destruct props as [|q props]; [contradiction|].
  cbn [weak] in Hw. rewrite forallb_forall in Hw. now rewrite (Hw p Hp).
Qed.

(** A weak record type whose members are all typed [string]: an object
    with members must have one of the declared members, and the declared
    members it has must hold strings. *)
Lemma conforms_optional_string_record
      (props : list (string * bool * ty)) (t : ty)
      (ms : list (string * json)) :
  resolve t = Some [TRecord props None] ->
  Forall (fun p => prop_ty p = TString) props ->
  weak props None = true ->
  conforms (JObj ms) t = true <->
  (ms = [] \/ (exists k x, In (k, x) ms /\ In k (map prop_key props)))
  /\ (forall k x, In (k, x) ms -> In k (map prop_key props) ->
                  is_string x = true).
Proof.
  intros R Hty Hw. rewrite (conforms_string_record _ ms R Hty).
  rewrite (weak_required_present _ _ Hw). unfold weak_type_ok.
  rewrite Hw. cbn [negb orb]. rewrite shares_member_iff. tauto.
Qed.

(** X8.  [repository] takes a string, or a record whose [type], [url]
    and [directory] members, where present, are strings.  No member of
    the record is required, so the empty record is accepted; but the
    record type is weak, so a record with members must have one of the
    three: a record of other keys only is rejected. *)
Theorem repository_shape :
  (forall v,
      conforms v Package.Json_repository = true <->
      (exists s, v = JStr s)
      \/ (exists ms,
             v = JObj ms
             /\ (ms = []
                 \/ (exists k x, In (k, x) ms
                                 /\ In k ["type"; "url"; "directory"]))
             /\ (forall k x, In (k, x) ms ->
                             In k ["type"; "url"; "directory"] ->
                             is_string x = true)))
  /\ conforms (JObj []) Package.Json_repository = true
  /\ (forall k x,
         ~ In k ["type"; "url"; "directory"] ->
         conforms (JObj [(k, x)]) Package.Json_repository = false).
Proof.
  assert (Hrec : forall ms,
             conforms (JObj ms) Package.Json_repository =
             conforms (JObj ms)
                      (TRecord [ opt "type" TString; opt "url" TString;
                                 opt "directory" TString ] None)).
  { intros ms.
    rewrite conforms_union2
      with (a := TString)
           (b := TRecord [ opt "type" TString; opt "url" TString;
                           opt "directory" TString ] None)
      by reflexivity.
    now rewrite conforms_single
      with (a := TRecord [ opt "type" TString; opt "url" TString;
                           opt "directory" TString ] None)
      by reflexivity. }
  assert (Hshape : forall ms,
             conforms (JObj ms) Package.Json_repository = true <->
             (ms = []
              \/ (exists k x, In (k, x) ms
                              /\ In k ["type"; "url"; "directory"]))
             /\ (forall k x, In (k, x) ms ->
                             In k ["type"; "url"; "directory"] ->
                             is_string x = true)).
  { intros ms. rewrite Hrec.
    apply (@conforms_optional_string_record
             [opt "type" TString; opt "url" TString;
              opt "directory" TString]
             (TRecord [opt "type" TString; opt "url" TString;
                       opt "directory" TString] None) ms eq_refl);
      [repeat constructor | reflexivity]. }
  split; [|split; [reflexivity|]].
  - intros v. destruct v as [ | b | n | s | vs | ms ].
    1-3, 5: split; [discriminate
                   | intros [[s H]|(ms & H & _)]; discriminate].
    + split; [eauto | reflexivity].
    + rewrite Hshape. split.
      * intros H. right. exists ms. auto.
      * intros [[s H]|(ms' & [= <-] & H)]; [discriminate | exact H].
  - intros k x Hk.
    destruct (conforms (JObj [(k, x)]) Package.Json_repository) eqn:E;
      [|reflexivity].
    apply Hshape in E. destruct E as [[E|(k' & x' & [[= <- <-]|[]] & Hin)] _];
      [discriminate | contradiction].
Qed.

Lemma repository_shape_witness :
  conforms (JObj [("branch", JStr "main")]) Package.Json_repository = false.
Proof.
  destruct repository_shape as (_ & _ & H). apply H.
  intros [E|[E|[E|[]]]]; discriminate.
Defined.

(** X9.  [directories] and [dist] take records only (a string is
    rejected).  Every member they declare is an optional string, so the
    empty record is accepted and the declared members a record has must
    hold strings; both types are weak, so a record with members must
    have one of the declared ones. *)
Theorem directories_and_dist_shape :
  (forall v,
      conforms v Package.Json_directories = true <->
      exists ms,
        v = JObj ms
        /\ (ms = []
            \/ (exists k x,
                   In (k, x) ms
                   /\ In k ["bin"; "doc"; "example"; "lib"; "man"; "test"]))
        /\ (forall k x, In (k, x) ms ->
                        In k ["bin"; "doc"; "example"; "lib"; "man"; "test"]
                        -> is_string x = true))
  /\ (forall v,
         conforms v Package.Json_dist = true <->
         exists ms,
           v = JObj ms
           /\ (ms = []
               \/ (exists k x, In (k, x) ms /\ In k ["shasum"; "tarball"]))
           /\ (forall k x, In (k, x) ms -> In k ["shasum"; "tarball"] ->
                           is_string x = true))
  /\ (forall s, conforms (JStr s) Package.Json_directories = false
                /\ conforms (JStr s) Package.Json_dist = false).
Proof.
  split; [|split; [|intros s; split; reflexivity]].
  - intros v. split.
    + intros H.
      destruct (@conforms_single_record_inv
                  v Package.Json_directories _ _ eq_refl H) as [ms ->].
      exists ms. split; [reflexivity|].
      apply (@conforms_optional_string_record
               _ Package.Json_directories ms eq_refl);
        [repeat constructor | reflexivity | exact H].
    + intros (ms & -> & H).
      apply (@conforms_optional_string_record
               _ Package.Json_directories ms eq_refl);
        [repeat constructor | reflexivity | exact H].
  - intros v. split.
    + intros H.
      destruct (@conforms_single_record_inv v Package.Json_dist
                  _ _ eq_refl H) as [ms ->].
      exists ms. split; [reflexivity|].
      apply (@conforms_optional_string_record
               _ Package.Json_dist ms eq_refl);
        [repeat constructor | reflexivity | exact H].
    + intros (ms & -> & H).
      apply (@conforms_optional_string_record
               _ Package.Json_dist ms eq_refl);
        [repeat constructor | reflexivity | exact H].
Qed.

Example weak_records_rejected :
  conforms (JObj [("src", JStr "./src")]) Package.Json_directories = false
  /\ conforms (JObj [("integrity", JStr "sha512-x")]) Package.Json_dist
     = false
  /\ conforms (JObj [("catalog", JNum "1")]) Package.Json_workspaces = false
  /\ conforms (JObj [("./sub", JNum "42")]) Package.Json_exports = false
  /\ conforms (JObj [("./sub", JStr "./sub.js")]) Package.Json_exports
     = true
  /\ conforms (JObj [("./sub", JStr "./sub.js")])
              (TRef "PackageExportsEntryOrFallback") = false.
Proof. repeat split; reflexivity. Qed.

(* ================================================================== *)
(** * Sequences of strings *)
(* ================================================================== *)

Lemma conforms_string_array (v : json) :
  conforms v (TArray TString) = is_string_array v.
Proof.
  rewrite conforms_single with (a := TArray TString) by reflexivity.
  destruct v; try reflexivity. cbn [accepts is_string_array].
  apply forallb_ext_in. intros x _. apply conforms_TString.
Qed.

(** X10.  [keywords], [files], [os] and [cpu] take exactly the
    sequences of strings: a bare string, or a sequence with an item that
    is not a string, is rejected; the empty sequence is accepted. *)
Theorem string_array_members_shape (k : string) (v : json) :
  In k string_array_members ->
  member_accepts k v = is_string_array v.
Proof.
  intros Hk.
  assert (Hm : member_accepts k v = conforms v (TArray TString)).
  { destruct Hk as [<-|[<-|[<-|[<-|[]]]]]; reflexivity. }
  rewrite Hm. apply conforms_string_array.
Qed.

Lemma string_array_members_shape_witness :
  member_accepts "keywords" (JArr [JStr "cli"; JNum "3"]) =
  is_string_array (JArr [JStr "cli"; JNum "3"]).
Proof.
  apply (@string_array_members_shape "keywords"
           (JArr [JStr "cli"; JNum "3"])).
  simpl. tauto.
Defined.

(** X11.  [typesVersions] takes exactly the records all of whose values,
    under whatever key, are sequences of strings. *)
Theorem typesVersions_shape (v : json) :
  conforms v Package.Json_typesVersions = true <->
  exists ms,
    v = JObj ms
    /\ (forall k x, In (k, x) ms -> is_string_array x = true).
Proof.
  assert (Hrec : forall ms,
             conforms (JObj ms) Package.Json_typesVersions =
             forallb (fun m => is_string_array (snd m)) ms).
  { intros ms.
    rewrite conforms_record
      with (props := []) (index := Some (TArray TString)) by reflexivity.
    cbn [required_present forallb andb]. apply forallb_ext_in.
    intros m _. cbn [member_type prop_type].
    apply conforms_string_array. }
  split.
  - intros H.
    destruct (@conforms_single_record_inv
                v Package.Json_typesVersions _ _ eq_refl H) as [ms ->].
    exists ms. split; [reflexivity|].
    rewrite Hrec, forallb_members in H. exact H.
  - intros (ms & -> & H). rewrite Hrec, forallb_members. exact H.
Qed.

(** X12.  [workspaces] takes a sequence of strings, or a record whose
    [packages] and [nohoist] members, where present, are sequences of
    strings.  The record type is weak: the empty record is accepted, and
    a record with members must have [packages] or [nohoist]. *)
Theorem workspaces_shape (v : json) :
  conforms v Package.Json_workspaces = true <->
  is_string_array v = true
  \/ (exists ms,
         v = JObj ms
         /\ (ms = []
             \/ (exists k x, In (k, x) ms
                             /\ In k ["packages"; "nohoist"]))
         /\ (forall k x, In (k, x) ms -> In k ["packages"; "nohoist"] ->
                         is_string_array x = true)).
Proof.
  rewrite conforms_union2
    with (a := TArray TString)
         (b := TRecord [ opt "packages" (TArray TString);
                         opt "nohoist" (TArray TString) ] None)
    by reflexivity.
  destruct v as [ | b | n | s | vs | ms ].
  1-4: split; [discriminate | intros [H|(ms & H & _)]; discriminate].
  - cbn [accepts orb is_string_array]. rewrite orb_false_r.
    rewrite (forallb_ext_in _ is_string vs
               (fun x _ => conforms_TString x)).
    split; [auto | intros [H|(ms & H & _)]; [exact H | discriminate]].
  - cbn [accepts orb is_string_array].
    unfold weak_type_ok.
    cbn [weak forallb prop_optional opt fst snd andb negb orb].
    rewrite required_present_members.
    cbn [required_members filter prop_optional opt fst snd negb forallb
         andb].
    rewrite andb_true_iff, shares_member_iff, forallb_members.
    cbn [fst snd map prop_key opt]. split.
    + intros [Hshare H]. right. exists ms. split; [reflexivity|].
      split; [exact Hshare|].
      intros k x Hin Hk. specialize (H k x Hin). unfold member_type in H.
      destruct Hk as [<-|[<-|[]]];
        cbn [prop_type prop_key prop_ty opt fst snd String.eqb] in H;
        now rewrite <- conforms_string_array.
    + intros [H|(ms' & [= <-] & Hshare & H)]; [discriminate|].
      split; [exact Hshare|].
      intros k x Hin. specialize (H k x Hin). unfold member_type.
      cbn [prop_type prop_key prop_ty opt fst snd].
      destruct (String.eqb_spec k "packages") as [->|_].
      { rewrite conforms_string_array. apply H. simpl. tauto. }
      destruct (String.eqb_spec k "nohoist") as [->|_]; [|reflexivity].
      rewrite conforms_string_array. apply H. simpl. tauto.
Qed.

(* ================================================================== *)
(** * Scalar members *)
(* ================================================================== *)

(** X13.  [description], [homepage], [license], [main], [type],
    [types], [typings], [packageManager], [readme] and [module] take
    exactly the strings. *)
Theorem string_members_shape (k : string) (v : json) :
  In k string_members -> member_accepts k v = is_string v.
Proof.
  intros Hk.
  assert (Hm : member_accepts k v = conforms v TString).
  { unfold string_members in Hk. cbn [In] in Hk.
    repeat (destruct Hk as [<-|Hk]; [reflexivity|]). contradiction. }
  rewrite Hm. apply conforms_TString.
Qed.

Lemma string_members_shape_witness :
  member_accepts "license" (JArr [JStr "MIT"]) =
  is_string (JArr [JStr "MIT"]).
Proof.
  apply (@string_members_shape "license" (JArr [JStr "MIT"])).
  simpl. tauto.
Defined.

(** X14.  The members that take a boolean: [engineStrict] takes
    booleans only, [private] a boolean or a string, and
    [bundledDependencies] a boolean or a sequence of strings. *)
Theorem boolean_members_shape (v : json) :
  member_accepts "engineStrict" v = is_boolean v
  /\ member_accepts "private" v = is_boolean v || is_string v
  /\ member_accepts "bundledDependencies" v
     = is_boolean v || is_string_array v.
Proof.
  split; [apply conforms_TBoolean|]. split.
  - unfold member_accepts.
    change (prop_type "private" Package.Json_members)
      with (Some (TBoolean :|: TString)%ty).
    cbv iota.
    now rewrite conforms_union2 with (a := TBoolean) (b := TString)
      by reflexivity.
  - unfold member_accepts.
    change (prop_type "bundledDependencies" Package.Json_members)
      with (Some (TBoolean :|: TArray TString)%ty).
    cbv iota.
    rewrite conforms_union2 with (a := TBoolean) (b := TArray TString)
      by reflexivity.
    f_equal. rewrite <- conforms_string_array.
    now rewrite conforms_single with (a := TArray TString) by reflexivity.
Qed.

(* ================================================================== *)
(** * Opaque members *)
(* ================================================================== *)

Lemma conforms_TObject (v : json) :
  conforms v TObject = is_record v || is_array v.
Proof. now rewrite conforms_single with (a := TObject). Qed.

(** X15.  The members typed [object] ([config], [resolutions],
    [overrides] and the tool blocks) take every record and every
    sequence, whatever they contain, and no primitive: [null], booleans,
    numbers and strings are rejected.  [bin] takes the same values and
    strings; [jspm], typed [any], takes every value. *)
Theorem opaque_members_shape (v : json) :
  (forall k, In k object_members ->
             member_accepts k v = is_record v || is_array v)
  /\ member_accepts "bin" v = is_string v || (is_record v || is_array v)
  /\ member_accepts "jspm" v = true.
Proof.
  split; [|split].
  - intros k Hk.
    assert (Hm : member_accepts k v = conforms v TObject).
    { unfold object_members in Hk. cbn [In] in Hk.
      repeat (destruct Hk as [<-|Hk]; [reflexivity|]). contradiction. }
    rewrite Hm. apply conforms_TObject.
  - unfold member_accepts.
    change (prop_type "bin" Package.Json_members)
      with (Some (TString :|: TObject)%ty).
    cbv iota.
    now rewrite conforms_union2 with (a := TString) (b := TObject)
      by reflexivity.
  - unfold member_accepts.
    change (prop_type "jspm" Package.Json_members) with (Some TAny).
    cbv iota. now rewrite conforms_single with (a := TAny).
Qed.

Lemma opaque_members_shape_witness :
  member_accepts "config" (JArr [JNull; JNum "1"]) = true
  /\ member_accepts "eslintConfig" JNull = false.
Proof.
  split.
  - destruct (opaque_members_shape (JArr [JNull; JNum "1"])) as [H _].
    rewrite H; [reflexivity | simpl; tauto].
  - destruct (opaque_members_shape JNull) as [H _].
    rewrite H; [reflexivity | simpl; tauto].
Defined.

(* ================================================================== *)
(** * Which members take which kind of value *)
(* ================================================================== *)

Lemma declared_keys_In (k : string) :
  In k declared_keys <-> prop_type k Package.Json_members <> None.
Proof.
  unfold declared_keys. split.
  - intros Hin Hnone. now apply prop_type_undeclared in Hnone.
  - intros Hsome.
    destruct (in_dec string_dec k (map prop_key Package.Json_members))
      as [Hin|Hout]; [exact Hin|].
    now apply prop_type_undeclared in Hout.
Qed.

Lemma by_declared_key (f g : string -> bool) :
  forallb (fun k => Bool.eqb (f k) (g k)) declared_keys = true ->
  forall k, In k declared_keys -> f k = g k.
Proof.
  intros H k Hk. rewrite forallb_forall in H.
  apply eqb_prop. now apply H.
Qed.

(** X16.  [null] is a legal value only under [exports] and [jspm]:
    every other member [Json] declares rejects it, so a valid manifest
    that holds [null] under a key holds it under one of these two or
    under a key [Json] does not declare. *)
Theorem null_only_in_exports_and_jspm :
  (forall k, In k declared_keys ->
             member_accepts k JNull
             = existsb (String.eqb k) ["exports"; "jspm"])
  /\ (forall doc k,
         valid_manifest (JObj doc) = true -> In (k, JNull) doc ->
         In k ["exports"; "jspm"] \/ ~ In k declared_keys).
Proof.
  assert (Hkeys : forall k, In k declared_keys ->
                            member_accepts k JNull
                            = existsb (String.eqb k) ["exports"; "jspm"]).
  { apply by_declared_key. vm_compute. reflexivity. }
  split; [exact Hkeys|].
  intros doc k Hvalid Hin.
  destruct (in_dec string_dec k declared_keys) as [Hk|Hk]; [left|now right].
  apply valid_manifest_iff in Hvalid. destruct Hvalid as (_ & _ & Hshape).
  specialize (Hkeys k Hk). unfold member_accepts in Hkeys.
  destruct (prop_type k Package.Json_members) as [e|] eqn:He.
  - rewrite (Hshape _ _ _ Hin He) in Hkeys. symmetry in Hkeys.
    apply existsb_exists in Hkeys. destruct Hkeys as (k' & Hk' & E).
    apply String.eqb_eq in E. now subst.
  - apply declared_keys_In in Hk. contradiction.
Qed.

Lemma null_only_in_exports_and_jspm_witness :
  In "exports" ["exports"; "jspm"] \/ ~ In "exports" declared_keys.
Proof.
  destruct null_only_in_exports_and_jspm as [_ H].
  apply (H [("name", JStr "x"); ("version", JStr "1.0.0");
            ("exports", JNull)] "exports").
  - reflexivity.
  - simpl. tauto.
Defined.

(** X17.  No member of [Json] is numeric: a JSON number is rejected
    under every declared key except [jspm], which is typed [any]; and
    a boolean is accepted under [bundledDependencies], [engineStrict],
    [private] and [jspm] only. *)
Theorem numbers_and_booleans_by_member (k : string) :
  In k declared_keys ->
  (forall n, member_accepts k (JNum n) = String.eqb k "jspm")
  /\ (forall b, member_accepts k (JBool b)
                = existsb (String.eqb k)
                          ["bundledDependencies"; "engineStrict";
                           "private"; "jspm"]).
Proof.
  intros Hk. split.
  - intros n. revert k Hk. apply by_declared_key. vm_compute. reflexivity.
  - intros b. revert k Hk. apply by_declared_key. vm_compute. reflexivity.
Qed.

Lemma numbers_and_booleans_by_member_witness :
  member_accepts "version" (JNum "1.0") = String.eqb "version" "jspm".
Proof.
  destruct (@numbers_and_booleans_by_member "version") as [H _].
  - vm_compute. tauto.
  - apply H.
Defined.

(* ================================================================== *)
(** * Index signatures *)
(* ================================================================== *)

Lemma indexed_records_eq :
  indexed_records =
  [ Package.Dependency;
    TRecord [] (Some (TRef "PackageExportsEntryOrFallback"));
    Package.Json_typesVersions;
    Package.Json_scripts;
    Package.Json_peerDependenciesMeta;
    Package.Json_peerDependenciesMeta_entry;
    Package.Json_engines;
    Package.Json_publishConfig;
    TRecord [opt "main" TString; opt "browser" TString]
            (Some (TString :|: TUndefined)%ty) ].
Proof. vm_compute. reflexivity. Qed.

(** X18.  In every record type of the file that has an index signature,
    the declared members lie within the index type: a value acceptable
    for a declared member is acceptable for the index signature.  So
    letting the index signature cover the declared members too, as
    TypeScript does, rejects nothing more. *)
Theorem index_signature_covers_members
        (t : ty) (props : list (string * bool * ty)) (index : ty)
        (p : string * bool * ty) (v : json) :
  In t indexed_records ->
  t = TRecord props (Some index) ->
  In p props ->
  conforms v (prop_ty p) = true ->
  conforms v index = true.
Proof.
  intros Ht E Hp Hv. rewrite indexed_records_eq in Ht.
  assert (Hstr : Forall (fun q => prop_ty q = TString) props ->
                 (forall x, conforms x index = is_string x) ->
                 conforms v index = true).
  { intros Hall Hidx. rewrite Forall_forall in Hall.
    rewrite (Hall p Hp), conforms_TString in Hv. now rewrite Hidx. }
  cbn [In] in Ht.
  destruct Ht as [<-|[<-|[<-|[<-|[<-|[<-|[<-|[<-|[<-|[]]]]]]]]]];
    injection E as <- <-; try contradiction.
  - apply Hstr; [repeat constructor | apply conforms_string_or_undefined].
  - destruct Hp as [<-|[]]. cbn [prop_ty req snd] in Hv.
    rewrite conforms_TBoolean in Hv.
    rewrite conforms_meta_value, Hv. apply orb_true_r.
  - apply Hstr; [repeat constructor | apply conforms_TString].
  - apply Hstr; [repeat constructor | apply conforms_string_or_undefined].
  - apply Hstr; [repeat constructor | apply conforms_string_or_undefined].
Qed.

Lemma index_signature_covers_members_witness :
  conforms (JBool true) (TString :|: TBoolean :|: TUndefined)%ty = true.
Proof.
  apply (@index_signature_covers_members
           Package.Json_peerDependenciesMeta_entry
           [req "optional" TBoolean]
           (TString :|: TBoolean :|: TUndefined)%ty
           (req "optional" TBoolean) (JBool true)).
  - vm_compute. tauto.
  - reflexivity.
  - simpl. tauto.
  - reflexivity.
Defined.

(** X19.  [scripts], [publishConfig] and the record form of [esnext]
    require no key and accept every key: a record conforms exactly when
    all its values are strings; in particular the empty record and a
    record of strings under names the declaration never mentions. *)
Theorem open_string_records_shape
        (t : ty) (ms : list (string * json)) :
  In t [Package.Json_scripts; Package.Json_publishConfig;
        Package.Json_esnext] ->
  conforms (JObj ms) t = true <->
  (forall k x, In (k, x) ms -> is_string x = true).
Proof.
  intros Ht.
  assert (E : conforms (JObj ms) t
              = forallb (fun m => is_string (snd m)) ms).
  { destruct Ht as [<-|[<-|[<-|[]]]].
    - apply conforms_scripts.
    - apply conforms_publishConfig.
    - apply conforms_esnext_record. }
  rewrite E. apply forallb_members.
Qed.

Lemma open_string_records_shape_witness :
  conforms (JObj [("build:docs", JStr "typedoc"); ("test", JStr "jest")])
           Package.Json_scripts = true.
Proof.
  apply (@open_string_records_shape Package.Json_scripts
           [("build:docs", JStr "typedoc"); ("test", JStr "jest")]).
  - simpl. tauto.
  - intros k x [E|[E|[]]]; injection E as _ <-; reflexivity.
Defined.

(* ================================================================== *)
(** * Composing records and sequences *)
(* ================================================================== *)

(** X20.  Dependency records merge and split: the members of two
    records put together form a [Dependency] exactly when each record
    is one. *)
Theorem dependency_records_merge (a b : list (string * json)) :
  conforms (JObj (a ++ b)) (TRef "Dependency") =
  conforms (JObj a) (TRef "Dependency")
  && conforms (JObj b) (TRef "Dependency").
Proof. rewrite !conforms_Dependency. apply forallb_app. Qed.

(** X21.  An [exports] sub-path map, a record under whatever keys whose
    values are all [PackageExportsEntryOrFallback] values, is accepted;
    booleans and numbers are not [exports] values. *)
Theorem exports_subpath_map :
  (forall ms,
      (forall k x, In (k, x) ms ->
                   conforms x (TRef "PackageExportsEntryOrFallback")
                   = true) ->
      conforms (JObj ms) Package.Json_exports = true)
  /\ (forall b, conforms (JBool b) Package.Json_exports = false)
  /\ (forall n, conforms (JNum n) Package.Json_exports = false).
Proof.
  split; [|split; intros; reflexivity].
  intros ms H. apply conforms_exports_record. left. exact H.
Qed.

Lemma exports_subpath_map_witness :
  conforms (JObj [(".", JStr "./index.js");
                  ("./feature", JObj [("import", JStr "./feature.mjs")]);
                  ("./internal/*", JNull)])
           Package.Json_exports = true.
Proof.
  destruct exports_subpath_map as [H _]. apply H.
  intros k x [E|[E|[E|[]]]]; injection E as _ <-; reflexivity.
Defined.


(* ================================================================== *)
(** * The references of the file *)
(* ================================================================== *)

(** X23.  Every type expression written in the file, and every name of
    a declaration, resolves: each reference names a declaration of the
    namespace, no alias leads back to itself without passing through a
    record or sequence type, the alternatives found are never empty and
    none of them is a union or a reference still, and more fuel finds
    the same alternatives. *)
Theorem written_types_well_resolved (t : ty) :
  In t written_types ->
  exists a alts,
    resolve t = Some (a :: alts)
    /\ Forall (fun h => is_head h = true) (a :: alts)
    /\ (forall extra,
           alternatives (extra + S (List.length Package.declarations)) t
           = Some (a :: alts)).
Proof.
  intros Hin.
  assert (Hall : forallb well_resolved written_types = true)
    by (vm_compute; reflexivity).
  rewrite forallb_forall in Hall. specialize (Hall t Hin).
  unfold well_resolved in Hall.
  destruct (resolve t) as [[|a alts]|] eqn:R; try discriminate.
  exists a, alts. split; [reflexivity|]. split.
  - apply Forall_forall. now apply forallb_forall.
  - intros extra. now apply resolve_stable.
Qed.

Lemma written_types_well_resolved_witness :
  exists a alts,
    resolve (TRef "PackageExportsEntryOrFallback") = Some (a :: alts)
    /\ Forall (fun h => is_head h = true) (a :: alts)
    /\ (forall extra,
           alternatives (extra + S (List.length Package.declarations))
                        (TRef "PackageExportsEntryOrFallback")
           = Some (a :: alts)).
Proof.
  apply (@written_types_well_resolved
           (TRef "PackageExportsEntryOrFallback")).
  vm_compute. tauto.
Defined.

(* ================================================================== *)
(** * The weak types of the file *)
(* ================================================================== *)

(** X24.  Five record types of the file are weak, and no other:
    [PackageExportsEntryObject], [directories], the record form of
    [repository], [dist] and the record form of [workspaces].  So the
    weak-type check rejects an object at these five types only, and
    only an object that has members none of which the type declares. *)
Theorem weak_records_of_the_file :
  weak_records =
  [ Package.PackageExportsEntryObject;
    Package.Json_directories;
    TRecord [ opt "type" TString; opt "url" TString;
              opt "directory" TString ] None;
    Package.Json_dist;
    TRecord [ opt "packages" (TArray TString);
              opt "nohoist" (TArray TString) ] None ]
  /\ (forall t props index ms,
         In t written_types -> t = TRecord props index ->
         weak_type_ok props index (keys ms) = false ->
         In t [ Package.PackageExportsEntryObject;
                Package.Json_directories;
                TRecord [ opt "type" TString; opt "url" TString;
                          opt "directory" TString ] None;
                Package.Json_dist;
                TRecord [ opt "packages" (TArray TString);
                          opt "nohoist" (TArray TString) ] None ]
         /\ ms <> []
         /\ (forall k x, In (k, x) ms -> ~ In k (map prop_key props))).
Proof.
  assert (Hlist : weak_records =
                  [ Package.PackageExportsEntryObject;
                    Package.Json_directories;
                    TRecord [ opt "type" TString; opt "url" TString;
                              opt "directory" TString ] None;
                    Package.Json_dist;
                    TRecord [ opt "packages" (TArray TString);
                              opt "nohoist" (TArray TString) ] None ])
    by (vm_compute; reflexivity).
  split; [exact Hlist|].
  intros t props index ms Hin -> Hno. unfold weak_type_ok in Hno.
  apply orb_false_iff in Hno. destruct Hno as [Hw Hshare].
  apply negb_false_iff in Hw. split; [|split].
  - rewrite <- Hlist. unfold weak_records. apply filter_In. auto.
  - intros ->. discriminate.
  - intros k x Hk Hd.
    assert (Hyes : shares_member props (keys ms) = true)
      by (apply shares_member_iff; eauto).
    congruence.
Qed.

Lemma weak_records_of_the_file_witness :
  [("src", JStr "./src")] <> []
  /\ (forall k x, In (k, x) [("src", JStr "./src")] ->
                  ~ In k ["bin"; "doc"; "example"; "lib"; "man"; "test"]).
Proof.
  destruct weak_records_of_the_file as [_ H].
  destruct (H Package.Json_directories
              [ opt "bin" TString; opt "doc" TString;
                opt "example" TString; opt "lib" TString;
                opt "man" TString; opt "test" TString ] None
              [("src", JStr "./src")]) as (_ & Hne & Hnone).
  - vm_compute. tauto.
  - reflexivity.
  - reflexivity.
  - split; [exact Hne | exact Hnone].
Defined.
